(** * SJTranscribe: the batch podcast transcriber [transcribe.py]

    A shallow embedding of [src/transcribe.py] and the properties of its
    four parts: file discovery ([get_mp3_files]), the transcription call and
    the artifact writer ([transcribe_file]) and the batch runner ([main]).

    The program is glue around three libraries, so the development has three
    layers:
    - the Python built-ins the script uses on [str] ([lower], [strip],
      [split], [rfind], slicing), on ASCII text;
    - [pathlib] (parsing, [name], [suffix], [stem], [/], [glob], [mkdir])
      and [open(..., "w")] over a file system given as a finite map from
      paths to nodes;
    - the script itself, written in a state-and-exception monad over a
      [world] (file system, standard output, clock reads, calls to whisper).

    What is fixed by the model:
    - a character is a byte. On ASCII text [lower], [isspace] and the order
      of [<] are those of Python; a property that depends on them for the
      text of a transcript or for the names in a directory says so, with
      [is_ascii];
    - paths have the POSIX syntax. The one place where the script behaves
      differently on Windows, the case sensitivity of [glob], is a field of
      the environment;
    - the file system is looked up by parsed path: two spellings of one file
      (through [..] or a link) are two keys. [mkdir] and [open] raise for the
      reasons the tree gives (a file where a directory is wanted, a missing
      parent, a directory where a file is wanted), not for permissions, a
      name too long or a full disk; a new name is put at the end of the
      listing of its directory, where a file system may put it anywhere, so
      the properties speak of listings up to their order;
    - [is_file] and [is_dir] ask [os.stat], which may raise for reasons the
      tree does not give (a name too long, a directory that may not be
      searched): these are a field of the environment;
    - the speech-to-text model is an oracle: [whisper.load_model] and
      [model.transcribe] are parameters, and each of them may raise;
    - the exceptions are instances of [Exception]; [sys.exit] is the only
      source of a [SystemExit], and an interrupt from outside the process is
      not part of a run. *)

From Stdlib Require Import String Ascii List Arith ZArith Lia DecimalString.
From stdpp Require Import gmap strings list fin_maps sorting.

Local Open Scope Z_scope.
Local Open Scope nat_scope.

(** ** Python [str] on ASCII text *)

Module PyStr.

(** One-character strings. *)
Definition chr (c : ascii) : string := String c EmptyString.

Definition slash : ascii := "/"%char.
Definition dot : ascii := "."%char.

(** ASCII text: every character is below 128. *)
Definition is_ascii (s : string) : bool :=
  forallb (fun c => nat_of_ascii c <? 128) (list_ascii_of_string s).

(** [c.lower()] for one ASCII character: only A..Z change. *)
Definition lower_ascii (c : ascii) : ascii :=
  let n := nat_of_ascii c in
  if (65 <=? n) && (n <=? 90) then ascii_of_nat (n + 32) else c.

(** [s.lower()] *)
Fixpoint lower (s : string) : string :=
  match s with
  | EmptyString => EmptyString
  | String c s' => String (lower_ascii c) (lower s')
  end.

(** [c.isspace()] for one ASCII character: tab, line feed, vertical tab,
    form feed, carriage return, the four separators 0x1c..0x1f and the
    space. *)
Definition isspace (c : ascii) : bool :=
  let n := nat_of_ascii c in
  ((9 <=? n) && (n <=? 13)) || ((28 <=? n) && (n <=? 32)).

(** [s.lstrip()] *)
Fixpoint lstrip (s : string) : string :=
  match s with
  | EmptyString => EmptyString
  | String c s' => if isspace c then lstrip s' else s
  end.

(** [s.rstrip()] *)
Fixpoint rstrip (s : string) : string :=
  match s with
  | EmptyString => EmptyString
  | String c s' =>
      match rstrip s' with
      | EmptyString => if isspace c then EmptyString else chr c
      | r => String c r
      end
  end.

(** [s.strip()] *)
Definition strip (s : string) : string := rstrip (lstrip s).

(** Only white space, white space in front, white space at the end. *)
Fixpoint all_space (s : string) : bool :=
  match s with
  | EmptyString => true
  | String c s' => isspace c && all_space s'
  end.

Definition head_is_space (s : string) : bool :=
  match s with
  | EmptyString => false
  | String c _ => isspace c
  end.

Fixpoint last_is_space (s : string) : bool :=
  match s with
  | EmptyString => false
  | String c EmptyString => isspace c
  | String _ s' => last_is_space s'
  end.

(** [len(s.split())]: the number of maximal runs of non-space characters.
    [inword] tells whether the previous character was part of a word. *)
Fixpoint count_words_from (inword : bool) (s : string) : nat :=
  match s with
  | EmptyString => 0
  | String c s' =>
      if isspace c then count_words_from false s'
      else (if inword then 0 else 1) + count_words_from true s'
  end.

Definition count_words (s : string) : nat := count_words_from false s.

(** [s.endswith(suf)] *)
Fixpoint endswith (s suf : string) : bool :=
  String.eqb s suf ||
  match s with
  | EmptyString => false
  | String _ s' => endswith s' suf
  end.

(** [s.startswith(pre)] *)
Fixpoint startswith (s pre : string) {struct pre} : bool :=
  match pre, s with
  | EmptyString, _ => true
  | String _ _, EmptyString => false
  | String b pre', String a s' => Ascii.eqb a b && startswith s' pre'
  end.

(** [c in s] for a one-character needle. *)
Fixpoint contains (c : ascii) (s : string) : bool :=
  match s with
  | EmptyString => false
  | String a s' => Ascii.eqb a c || contains c s'
  end.

(** [s.rfind(c)] for a one-character needle: the last index, or -1. *)
Fixpoint rfind (c : ascii) (s : string) : Z :=
  match s with
  | EmptyString => (-1)%Z
  | String a s' =>
      let r := rfind c s' in
      if (0 <=? r)%Z then (r + 1)%Z
      else if Ascii.eqb a c then 0%Z else (-1)%Z
  end.

(** [s[i:]] and [s[:i]] for [0 <= i <= len(s)]. *)
Definition slice_from (i : nat) (s : string) : string :=
  String.substring i (String.length s - i) s.
Definition slice_to (i : nat) (s : string) : string :=
  String.substring 0 i s.

(** [s.split(c)] for a one-character separator: never the empty list. *)
Fixpoint split (c : ascii) (s : string) : list string :=
  match s with
  | EmptyString => [EmptyString]
  | String a s' =>
      if Ascii.eqb a c then EmptyString :: split c s'
      else match split c s' with
           | h :: t => String a h :: t
           | [] => [chr a]
           end
  end.

(** [sep.join(l)] *)
Definition join (sep : string) (l : list string) : string :=
  String.concat sep l.

(** [c * n] *)
Fixpoint repeat_char (c : ascii) (n : nat) : string :=
  match n with
  | O => EmptyString
  | S n' => String c (repeat_char c n')
  end.

(** [str(n)] for a natural number. *)
Definition str_of_nat (n : nat) : string :=
  NilEmpty.string_of_uint (Nat.to_uint n).

(** [s.zfill(w)]: left padding with zeros. *)
Definition zfill (w : nat) (s : string) : string :=
  repeat_char "0"%char (w - String.length s) +:+ s.

End PyStr.

(** ** Python exceptions

    Values of this type are instances of Python's [Exception]: the class
    name, the message ([str(e)]) and the chained [__cause__]. *)

#[warnings="-register-all"]
Inductive exception : Type :=
  Raise (cls : string) (msg : string) (cause : option exception).

Definition exc_class (e : exception) : string :=
  match e with Raise c _ _ => c end.
Definition exc_str (e : exception) : string :=
  match e with Raise _ m _ => m end.
Definition exc_cause (e : exception) : option exception :=
  match e with Raise _ _ c => c end.

(** ** [pathlib] on the POSIX flavour, and the file system *)

Module Pathlib.
Import PyStr.

(** A path in parsed form (pathlib's [parts]): the anchor ["/"] or ["//"],
    when the path has one, is the first part; no other part holds a slash. *)
Definition path : Type := list string.

Definition is_anchor (a : string) : bool :=
  String.eqb a "/" || String.eqb a "//".

(** [posixpath.splitroot]: the root and the rest. *)
Definition splitroot (s : string) : string * string :=
  if negb (startswith s "/") then (EmptyString, s)
  else if negb (startswith s "//") || startswith s "///"
       then ("/"%string, slice_from 1 s)
       else ("//"%string, slice_from 2 s).

Definition keep_part (x : string) : bool :=
  negb (String.eqb x EmptyString) && negb (String.eqb x ".").

(** The parts [Path] keeps: no slash inside, not empty, not ["."]. *)
Definition part_ok (x : string) : Prop :=
  contains slash x = false /\ keep_part x = true.

(** [Path(s)]: empty and ["."] components are dropped, [".."] is kept. *)
Definition Path (s : string) : path :=
  let '(root, rel) := splitroot s in
  (if String.eqb root EmptyString then [] else [root])
    ++ List.filter keep_part (split slash rel).

Definition anchor (p : path) : string :=
  match p with
  | a :: _ => if is_anchor a then a else EmptyString
  | [] => EmptyString
  end.

(** The parts after the anchor. *)
Definition tail_parts (p : path) : list string :=
  match p with
  | a :: t => if is_anchor a then t else p
  | [] => []
  end.

(** [str(p)] *)
Definition str (p : path) : string :=
  match p with
  | [] => "."%string
  | _ => anchor p +:+ join "/" (tail_parts p)
  end.

(** [p.name]: the last part, the empty string when there is none. *)
Definition name (p : path) : string := List.last (tail_parts p) EmptyString.

(** [p.suffix]: from the last dot of the name, unless that dot is the first
    or the last character. *)
Definition suffix_of_name (n : string) : string :=
  let i := rfind dot n in
  if ((0 <? i) && (i <? Z.of_nat (String.length n) - 1))%Z
  then slice_from (Z.to_nat i) n else EmptyString.

Definition suffix (p : path) : string := suffix_of_name (name p).

(** [p.stem]: the name without its suffix. *)
Definition stem_of_name (n : string) : string :=
  let i := rfind dot n in
  if ((0 <? i) && (i <? Z.of_nat (String.length n) - 1))%Z
  then slice_to (Z.to_nat i) n else n.

Definition stem (p : path) : string := stem_of_name (name p).

(** [p / s]: an anchored [s] replaces [p], otherwise its parts are added. *)
Definition joinpath (p : path) (s : string) : path :=
  let q := Path s in
  if String.eqb (anchor q) EmptyString then p ++ q else q.

(** [p.parent] *)
Definition parent (p : path) : path :=
  match tail_parts p with
  | [] => p
  | _ => removelast p
  end.

(** A node of the file system: a regular file with its text, or a directory
    with the names of its entries in the order [os.scandir] yields them. *)
Inductive node : Type :=
| File (content : string)
| Dir (entries : list string).

Abbreviation filesystem := (gmap path node).

(** What the tree holds at [p]: a regular file, a directory. *)
Definition isfile (fs : filesystem) (p : path) : bool :=
  match fs !! p with Some (File _) => true | _ => false end.

Definition isdir (fs : filesystem) (p : path) : bool :=
  match fs !! p with Some (Dir _) => true | _ => false end.

Definition scandir (fs : filesystem) (p : path) : list string :=
  match fs !! p with Some (Dir l) => l | _ => [] end.

(** [fnmatch] of a name against the pattern ["*" + lit], [lit] a literal:
    the POSIX flavour compares as written, the Windows flavour ignores case. *)
Definition fnmatch_star (case_sensitive : bool) (lit n : string) : bool :=
  if case_sensitive then endswith n lit
  else endswith (lower n) (lower lit).

(** [list(p.glob("*" + lit))]: the matching entries directly inside [p], in
    [scandir] order; hidden names are not special. *)
Definition glob_star (case_sensitive : bool) (fs : filesystem) (p : path)
    (lit : string) : list path :=
  map (fun n => p ++ [n]) (List.filter (fnmatch_star case_sensitive lit) (scandir fs p)).

(** [OSError]s, with the message of [str(e)]. *)
Definition os_error (cls : string) (errno : nat) (what : string) (p : path)
  : exception :=
  Raise cls ("[Errno " +:+ str_of_nat errno +:+ "] " +:+ what +:+ ": '"
             +:+ str p +:+ "'") None.

Definition FileExistsError := os_error "FileExistsError" 17 "File exists".
Definition FileNotFoundError :=
  os_error "FileNotFoundError" 2 "No such file or directory".
Definition NotADirectoryError :=
  os_error "NotADirectoryError" 20 "Not a directory".
Definition IsADirectoryError :=
  os_error "IsADirectoryError" 21 "Is a directory".

(** Adding a new entry [p] under its parent directory, whose listing is [l].
    The new name goes last; a file system may list it anywhere. *)
Definition create (fs : filesystem) (p : path) (l : list string) (n : node)
  : filesystem :=
  <[p := n]> (<[parent p := Dir (l ++ [name p])]> fs).

(** [p.mkdir(exist_ok=True)]: nothing to do for a directory; an existing
    file and a missing parent raise. *)
Definition mkdir_exist_ok (fs : filesystem) (p : path)
  : exception + filesystem :=
  match fs !! p with
  | Some (Dir _) => inr fs
  | Some (File _) => inl (FileExistsError p)
  | None =>
      match fs !! parent p with
      | Some (Dir l) => inr (create fs p l (Dir []))
      | Some (File _) => inl (NotADirectoryError p)
      | None => inl (FileNotFoundError p)
      end
  end.

(** [open(p, "w")]: an existing file is truncated, a new one is created in
    an existing parent directory; a directory at [p] raises. *)
Definition open_w (fs : filesystem) (p : path) : exception + filesystem :=
  match fs !! p with
  | Some (File _) => inr (<[p := File EmptyString]> fs)
  | Some (Dir _) => inl (IsADirectoryError p)
  | None =>
      match fs !! parent p with
      | Some (Dir l) => inr (create fs p l (File EmptyString))
      | Some (File _) => inl (NotADirectoryError p)
      | None => inl (FileNotFoundError p)
      end
  end.

(** [f.write(s)] on the file opened at [p]. *)
Definition write (fs : filesystem) (p : path) (s : string) : filesystem :=
  alter (fun n => match n with File c => File (c +:+ s) | d => d end) p fs.

(** The text of the file at [p]. *)
Definition read_text (fs : filesystem) (p : path) : option string :=
  match fs !! p with Some (File c) => Some c | _ => None end.

End Pathlib.

(** ** [datetime] *)

Record datetime : Type := {
  year : nat; month : nat; day : nat;
  hour : nat; minute : nat; second : nat
}.


(** [d.strftime('%Y-%m-%d %H:%M:%S')] for a [valid_datetime]: the year on
    four digits, the other fields on two. *)
Definition strftime (d : datetime) : string :=
  PyStr.zfill 4 (PyStr.str_of_nat (year d)) +:+ "-" +:+
  PyStr.zfill 2 (PyStr.str_of_nat (month d)) +:+ "-" +:+
  PyStr.zfill 2 (PyStr.str_of_nat (day d)) +:+ " " +:+
  PyStr.zfill 2 (PyStr.str_of_nat (hour d)) +:+ ":" +:+
  PyStr.zfill 2 (PyStr.str_of_nat (minute d)) +:+ ":" +:+
  PyStr.zfill 2 (PyStr.str_of_nat (second d)).

(** ** The world of one run *)

Import Pathlib.

(** [model.transcribe(path, verbose=False)] returns a dictionary, of which
    the script reads the key ["text"]. *)
Record transcription : Type := { text : string }.

(** A loaded model handle: its [transcribe] method returns or raises. *)
Record Model : Type := {
  transcribe : string -> exception + transcription
}.

(** The calls made to the whisper library, in order. *)
Inductive call : Type :=
| LoadModel (size : string)
| Transcribe (model : Model) (audio : string).

(** What the script cannot decide: the flavour of [glob] (case sensitive on
    POSIX, not on Windows), where the script lies, what the clock shows at
    its successive readings, what [whisper.load_model] does, and the paths
    that [os.stat] refuses to examine, with the [OSError] it raises for them
    (a name too long, a directory that may not be searched; not [ENOENT],
    [ENOTDIR], [EBADF] or [ELOOP], which mean that nothing is there). *)
Record env : Type := {
  glob_case_sensitive : bool;
  SCRIPT_DIR : path;
  clock : nat -> datetime;
  whisper_load_model : string -> exception + Model;
  stat_error : path -> option exception
}.

Record world : Type := {
  fs : gmap path node;
  stdout : list string;      (* one entry for each [print] *)
  clock_reads : nat;         (* calls of [datetime.now()] so far *)
  calls : list call          (* calls into whisper so far *)
}.

(** What ends a computation early: an [Exception], or the [SystemExit] of
    [sys.exit], which [except Exception] does not catch. *)
Inductive signal : Type :=
| Exc (e : exception)
| SystemExit (code : nat).

(** State and early exit: the world is kept when a signal is raised. *)
Definition M (A : Type) : Type := world -> (signal + A) * world.

Definition ret {A} (a : A) : M A := fun w => (inr a, w).

Definition bind {A B} (m : M A) (k : A -> M B) : M B :=
  fun w => match m w with
           | (inr a, w') => k a w'
           | (inl s, w') => (inl s, w')
           end.

#[global] Instance M_ret : MRet M := @ret.
#[global] Instance M_bind : MBind M := fun A B k m => bind m k.

(** [sys.exit(code)] *)
Definition sys_exit {A} (code : nat) : M A := fun w => (inl (SystemExit code), w).

(** [try: body  except Exception as e: handler(e)] *)
Definition try_except {A} (body : M A) (handler : exception -> M A) : M A :=
  fun w => match body w with
           | (inl (Exc e), w') => handler e w'
           | r => r
           end.

Definition set_fs (f : gmap path node) (w : world) : world :=
  {| fs := f; stdout := stdout w; clock_reads := clock_reads w; calls := calls w |}.

Definition add_stdout (lines : list string) (w : world) : world :=
  {| fs := fs w; stdout := stdout w ++ lines; clock_reads := clock_reads w;
     calls := calls w |}.

Definition tick (w : world) : world :=
  {| fs := fs w; stdout := stdout w; clock_reads := S (clock_reads w);
     calls := calls w |}.

Definition log_call (c : call) (w : world) : world :=
  {| fs := fs w; stdout := stdout w; clock_reads := clock_reads w;
     calls := calls w ++ [c] |}.

(** [print(s)] *)
Definition print (s : string) : M unit := fun w => (inr tt, add_stdout [s] w).

(** Lifting an operation of the file system that may raise. *)
Definition fs_op (op : gmap path node -> exception + gmap path node) : M unit :=
  fun w => match op (fs w) with
           | inr f => (inr tt, set_fs f w)
           | inl e => (inl (Exc e), w)
           end.

(** Lifting a reading of the file system that may raise. *)
Definition fs_read {A} (op : gmap path node -> exception + A) : M A :=
  fun w => match op (fs w) with
           | inr a => (inr a, w)
           | inl e => (inl (Exc e), w)
           end.

(** [f.write(s)] on the file open at [p]. *)
Definition f_write (p : path) (s : string) : M unit :=
  fun w => (inr tt, set_fs (write (fs w) p s) w).

(** The newline character. *)
Definition nl : string := String (ascii_of_nat 10) EmptyString.

Section Script.

Context (E : env).

(** [datetime.now()] *)
Definition datetime_now : M datetime :=
  fun w => (inr (clock E (clock_reads w)), tick w).

(** [whisper.load_model(size)] *)
Definition load_model (size : string) : M Model :=
  fun w => match whisper_load_model E size with
           | inr m => (inr m, log_call (LoadModel size) w)
           | inl e => (inl (Exc e), log_call (LoadModel size) w)
           end.

(** [model.transcribe(audio, verbose=False)] *)
Definition model_transcribe (model : Model) (audio : string) : M transcription :=
  fun w => match transcribe model audio with
           | inr r => (inr r, log_call (Transcribe model audio) w)
           | inl e => (inl (Exc e), log_call (Transcribe model audio) w)
           end.

(** *** Configuration *)

Definition MODEL_SIZE : string := "base".
Definition INPUT_FOLDER : path := joinpath (SCRIPT_DIR E) "input".
Definition OUTPUT_FOLDER : path := joinpath (SCRIPT_DIR E) "output".

(** *** [ensure_folders_exist] *)

Definition ensure_folders_exist : M unit :=
  fs_op (fun f => mkdir_exist_ok f INPUT_FOLDER) ;;
  fs_op (fun f => mkdir_exist_ok f OUTPUT_FOLDER).

(** *** [get_mp3_files] *)

(** [l.sort(key=key)]: Python's sort is stable and compares keys with [<].
    An element goes in front of the first one whose key is not smaller. *)
Fixpoint insert_by {A} (key : A -> string) (x : A) (l : list A) : list A :=
  match l with
  | [] => [x]
  | y :: l' => if String.ltb (key y) (key x) then y :: insert_by key x l'
               else x :: l
  end.

Fixpoint sort_by {A} (key : A -> string) (l : list A) : list A :=
  match l with
  | [] => []
  | x :: l' => insert_by key x (sort_by key l')
  end.

(** [p.is_file()] and [p.is_dir()]: [os.stat] is asked. When it fails
    because nothing is there the answer is [False]; any other [OSError] is
    raised again. *)
Definition is_file (f : gmap path node) (p : path) : exception + bool :=
  match stat_error E p with
  | Some e => inl e
  | None => inr (isfile f p)
  end.

Definition is_dir (f : gmap path node) (p : path) : exception + bool :=
  match stat_error E p with
  | Some e => inl e
  | None => inr (isdir f p)
  end.

Definition get_mp3_files (f : gmap path node) (path : option string)
  : exception + list string :=
  let path := match path with
              | None => INPUT_FOLDER
              | Some s => Path s
              end in
  match is_file f path with
  | inl e => inl e
  | inr file =>
      if file && String.eqb (PyStr.lower (suffix path)) ".mp3" then
        inr [str path]
      else
        match is_dir f path with
        | inl e => inl e
        | inr true =>
            let mp3_files := glob_star (glob_case_sensitive E) f path ".mp3"
                             ++ glob_star (glob_case_sensitive E) f path ".MP3" in
            let mp3_files := sort_by (fun x => PyStr.lower (name x)) mp3_files in
            inr (map str mp3_files)
        | inr false => inr []
        end
  end.

(** *** [transcribe_file] *)

Definition rule (c : ascii) : string := PyStr.repeat_char c 60.

Definition transcribe_file (model : Model) (audio_path : string)
    (output_dir : option path) : M string :=
  let audio_path := Path audio_path in
  let output_dir := match output_dir with
                    | None => OUTPUT_FOLDER
                    | Some d => d
                    end in
  let output_path := joinpath output_dir (stem audio_path +:+ ".txt") in
  print (nl +:+ rule "=") ;;
  print ("Transcribing: " +:+ name audio_path) ;;
  print (rule "=") ;;
  result ← model_transcribe model (str audio_path);
  let text := PyStr.strip (text result) in
  fs_op (fun f => open_w f output_path) ;;
  f_write output_path ("Transcription of: " +:+ name audio_path +:+ nl) ;;
  now ← datetime_now;
  f_write output_path ("Generated on: " +:+ strftime now +:+ nl) ;;
  f_write output_path ("Model used: whisper-" +:+ MODEL_SIZE +:+ nl) ;;
  f_write output_path (rule "=" +:+ nl +:+ nl) ;;
  f_write output_path text ;;
  print ("[OK] Saved transcription to: " +:+ str output_path) ;;
  print ("     Word count: ~" +:+ PyStr.str_of_nat (PyStr.count_words text)
         +:+ " words") ;;
  ret (str output_path).

(** *** [main] *)

(** [for x in l: body(x)] *)
Fixpoint for_each {A} (l : list A) (body : A -> M unit) : M unit :=
  match l with
  | [] => ret tt
  | x :: l' => body x ;; for_each l' body
  end.

(** [list(enumerate(l, start))] *)
Fixpoint enumerate {A} (l : list A) (start : nat) : list (nat * A) :=
  match l with
  | [] => []
  | x :: l' => (start, x) :: enumerate l' (S start)
  end.

(** The batch loop of [main] (lines 155 to 162), over what is left of
    [enumerate(mp3_files, 1)]; [output_files] is the list it appends to. *)
Fixpoint batch_loop (model : Model) (total : nat)
    (todo : list (nat * string)) (output_files : list string)
  : M (list string) :=
  match todo with
  | [] => ret output_files
  | (idx, mp3_file) :: todo' =>
      print (nl +:+ "[" +:+ PyStr.str_of_nat idx +:+ "/"
             +:+ PyStr.str_of_nat total +:+ "] Processing...") ;;
      output_files ←
        try_except
          (output_path ← transcribe_file model mp3_file (Some OUTPUT_FOLDER);
           ret (output_files ++ [output_path]))
          (fun e =>
             print (nl +:+ "[ERROR] Error transcribing " +:+ mp3_file +:+ ": "
                    +:+ exc_str e) ;;
             ret output_files);
      batch_loop model total todo' output_files
  end.

(** The help of [main] (lines 124 to 135). *)
Definition usage (source : string) : M unit :=
  print (nl +:+ "[!] No MP3 files found in: " +:+ source) ;;
  print (nl +:+ rule "-") ;;
  print "HOW TO USE:" ;;
  print (rule "-") ;;
  print (nl +:+ "1. Put your MP3 files in the 'input' folder:") ;;
  print ("   " +:+ str INPUT_FOLDER) ;;
  print (nl +:+ "2. Run: python transcribe.py") ;;
  print (nl +:+ "3. Find transcriptions in the 'output' folder:") ;;
  print ("   " +:+ str OUTPUT_FOLDER) ;;
  print (nl +:+ "OR specify a file/folder directly:") ;;
  print "   python transcribe.py episode.mp3" ;;
  print "   python transcribe.py C:\Podcasts\MyShow".

(** [input_path] and [custom_path] (lines 111 to 117 of [main]), from
    [sys.argv]: the script name, then the arguments. *)
Definition parse_argv (argv : list string) : option string * bool :=
  match argv with
  | _ :: a :: _ => (Some a, true)
  | _ => (None, false)
  end.

Definition main (argv : list string) : M unit :=
  print (nl +:+ rule "=") ;;
  print "  PODCAST TRANSCRIBER - Using Whisper (Free & Local)" ;;
  print "  BATCH MODE: Processes all MP3 files automatically" ;;
  print (rule "=") ;;
  ensure_folders_exist ;;
  let '(input_path, custom_path) := parse_argv argv in
  mp3_files ← fs_read (fun f => get_mp3_files f input_path);
  (match mp3_files with
   | [] =>
       let source := match input_path with
                     | Some s => if String.eqb s EmptyString
                                 then str INPUT_FOLDER else s
                     | None => str INPUT_FOLDER
                     end in
       usage source ;;
       sys_exit 1
   | _ => ret tt
   end) ;;
  print (nl +:+ "> Input folder:  "
         +:+ match input_path with
             | Some s => if custom_path then s else str INPUT_FOLDER
             | None => str INPUT_FOLDER
             end) ;;
  print ("> Output folder: " +:+ str OUTPUT_FOLDER) ;;
  print (nl +:+ "Found " +:+ PyStr.str_of_nat (length mp3_files)
         +:+ " MP3 file(s) to transcribe:") ;;
  for_each (enumerate mp3_files 1)
    (fun '(i, f) => print ("   " +:+ PyStr.str_of_nat i +:+ ". " +:+ name (Path f))) ;;
  print (nl +:+ "Loading Whisper '" +:+ MODEL_SIZE +:+ "' model...") ;;
  print "(First run will download the model - this may take a few minutes)" ;;
  model ← load_model MODEL_SIZE;
  print "[OK] Model loaded successfully!" ;;
  let total := length mp3_files in
  output_files ← batch_loop model total (enumerate mp3_files 1) [];
  print (nl +:+ rule "=") ;;
  print "  BATCH TRANSCRIPTION COMPLETE!" ;;
  print (rule "=") ;;
  print (nl +:+ "[OK] Successfully transcribed "
         +:+ PyStr.str_of_nat (length output_files) +:+ " of "
         +:+ PyStr.str_of_nat (length mp3_files) +:+ " files") ;;
  print (nl +:+ "Output folder: " +:+ str OUTPUT_FOLDER) ;;
  print (nl +:+ "Generated files:") ;;
  for_each output_files (fun f => print ("  - " +:+ name (Path f))).

(** The exit status of the process whose entry point is [main]: 0 when
    [main] returns, the code of [sys.exit], 1 for an uncaught exception. *)
Definition exit_status (r : signal + unit) : nat :=
  match r with
  | inr _ => 0
  | inl (SystemExit code) => code
  | inl (Exc _) => 1
  end.

Definition run (argv : list string) (w : world) : nat * world :=
  let '(r, w') := main argv w in (exit_status r, w').

End Script.

(** ** The vocabulary of the properties *)

Section Statements.

Context (E : env).

(** The directory [transcribe_file] writes into. *)
Definition dir_of (output_dir : option path) : path :=
  match output_dir with None => OUTPUT_FOLDER E | Some d => d end.

(** The path [get_mp3_files] looks at. *)
Definition target_of (target : option string) : path :=
  match target with None => INPUT_FOLDER E | Some s => Path s end.

(** The order [sort_by] establishes: keys do not decrease. *)
Definition key_le {A} (key : A -> string) (x y : A) : Prop :=
  String.le (key x) (key y).

(** The key [get_mp3_files] sorts by. *)
Definition sort_key (x : path) : string := PyStr.lower (name x).

(** Where the artifact of [audio] goes in the directory [d]. *)
Definition output_path_of (d : path) (audio : string) : path :=
  joinpath d (stem (Path audio) +:+ ".txt").

(** The layout of an artifact, line by line: the source file name, the
    timestamp, the model, a rule of 60 [=], a blank line, the trimmed text. *)
Definition artifact_text (source_name timestamp transcript : string) : string :=
  "Transcription of: " +:+ source_name +:+ nl +:+
  "Generated on: " +:+ timestamp +:+ nl +:+
  "Model used: whisper-base" +:+ nl +:+
  rule "=" +:+ nl +:+
  nl +:+
  PyStr.strip transcript.






(** The world once [transcribe_file] has announced [audio] and called the
    model on it. *)
Definition announced (m : Model) (audio : string) (w : world) : world :=
  log_call (Transcribe m (str (Path audio)))
    (add_stdout [nl +:+ rule "="; "Transcribing: " +:+ name (Path audio);
                 rule "="] w).

(** The world once [transcribe_file] has written the artifact of [audio]
    into [d], through the file opened as [f']. *)
Definition saved (m : Model) (audio : string) (d : path) (r : transcription)
    (f' : gmap path node) (w : world) : world :=
  let out := output_path_of d audio in
  let txt := PyStr.strip (text r) in
  {| fs := write (write (write (write (write f' out
             ("Transcription of: " +:+ name (Path audio) +:+ nl)) out
             ("Generated on: " +:+ strftime (clock E (clock_reads w)) +:+ nl)) out
             ("Model used: whisper-" +:+ MODEL_SIZE +:+ nl)) out
             (rule "=" +:+ nl +:+ nl)) out txt;
     stdout := stdout w ++
       [nl +:+ rule "="; "Transcribing: " +:+ name (Path audio); rule "=";
        "[OK] Saved transcription to: " +:+ str out;
        "     Word count: ~" +:+ PyStr.str_of_nat (PyStr.count_words txt)
          +:+ " words"];
     clock_reads := S (clock_reads w);
     calls := calls w ++ [Transcribe m (str (Path audio))] |}.

(** Both folders made, or the exception of the first [mkdir] that raises. *)
Definition folders_ready (f : gmap path node) : exception + gmap path node :=
  match mkdir_exist_ok f (INPUT_FOLDER E) with
  | inl e => inl e
  | inr f1 => mkdir_exist_ok f1 (OUTPUT_FOLDER E)
  end.

(** Why the processing of [audio] raises in a batch whose output folder is
    a directory of [f]: the model raises, or the destination is a directory.
    [None] when it does not raise. *)
Definition failure_of (m : Model) (f : gmap path node) (audio : string)
  : option exception :=
  match transcribe m (str (Path audio)) with
  | inl e => Some e
  | inr _ =>
      let out := output_path_of (OUTPUT_FOLDER E) audio in
      if isdir f out then Some (IsADirectoryError out) else None
  end.

Definition succeeds (m : Model) (f : gmap path node) (audio : string) : bool :=
  match failure_of m f audio with None => true | Some _ => false end.

(** The calls that load a model. *)
Definition is_load (c : call) : bool :=
  match c with LoadModel _ => true | Transcribe _ _ => false end.

(** The line [main] prints before it processes file number [idx]. *)
Definition processing_line (idx total : nat) : string :=
  nl +:+ "[" +:+ PyStr.str_of_nat idx +:+ "/" +:+ PyStr.str_of_nat total
  +:+ "] Processing...".

(** The line [main] prints for a file whose processing raised [e]. *)
Definition error_line (audio : string) (e : exception) : string :=
  nl +:+ "[ERROR] Error transcribing " +:+ audio +:+ ": " +:+ exc_str e.

(** The summary line of [main]. *)
Definition summary_line (k n : nat) : string :=
  nl +:+ "[OK] Successfully transcribed " +:+ PyStr.str_of_nat k +:+ " of "
  +:+ PyStr.str_of_nat n +:+ " files".

(** What a batch over [files] makes of the world [w], when the folders were
    ready in [f0]: directories stay as they are, every file was handed to the
    model in order, the clock was read once for each artifact, files stay
    files, every file that did not raise has its artifact, nothing else is
    written, and an error line was printed for every file that raised. *)
Definition batch_post (m : Model) (f0 : gmap path node) (files : list string)
    (w w' : world) : Prop :=
  let ok := succeeds m f0 in
  let out := output_path_of (OUTPUT_FOLDER E) in
  (forall q, isdir (fs w') q = isdir f0 q)
  /\ calls w' = calls w ++ map (fun a => Transcribe m (str (Path a))) files
  /\ clock_reads w' = clock_reads w + length (List.filter ok files)
  /\ (forall q, isfile (fs w) q = true -> isfile (fs w') q = true)
  /\ (forall a, In a files -> ok a = true -> isfile (fs w') (out a) = true)
  /\ (forall q, (forall a, In a files -> ok a = true -> out a <> q) ->
                read_text (fs w') q = read_text (fs w) q)
  /\ (exists printed, stdout w' = stdout w ++ printed
        /\ forall a e, In a files -> failure_of m f0 a = Some e ->
                       In (error_line a e) printed).

(** What [main] prints after the batch: the summary, then one line for each
    artifact. *)
Definition summary_lines (output_files mp3_files : list string) : list string :=
  [nl +:+ rule "="; "  BATCH TRANSCRIPTION COMPLETE!"; rule "=";
   summary_line (length output_files) (length mp3_files);
   nl +:+ "Output folder: " +:+ str (OUTPUT_FOLDER E);
   nl +:+ "Generated files:"]
  ++ map (fun f => "  - " +:+ name (Path f)) output_files.

(** What [main] prints before it loads the model. *)
Definition banner_lines : list string :=
  [nl +:+ rule "="; "  PODCAST TRANSCRIBER - Using Whisper (Free & Local)";
   "  BATCH MODE: Processes all MP3 files automatically"; rule "="].

Definition found_lines (argv : list string) (mp3_files : list string)
  : list string :=
  [nl +:+ "> Input folder:  "
     +:+ match parse_argv argv with
         | (Some s, true) => s
         | _ => str (INPUT_FOLDER E)
         end;
   "> Output folder: " +:+ str (OUTPUT_FOLDER E);
   nl +:+ "Found " +:+ PyStr.str_of_nat (length mp3_files)
     +:+ " MP3 file(s) to transcribe:"]
  ++ map (fun '(i, f) => "   " +:+ PyStr.str_of_nat i +:+ ". " +:+ name (Path f))
       (enumerate mp3_files 1)
  ++ [nl +:+ "Loading Whisper '" +:+ MODEL_SIZE +:+ "' model...";
      "(First run will download the model - this may take a few minutes)"].

(** The help [main] prints when it found nothing. *)
Definition usage_lines (argv : list string) : list string :=
  [nl +:+ "[!] No MP3 files found in: "
     +:+ match fst (parse_argv argv) with
         | Some s => if String.eqb s EmptyString then str (INPUT_FOLDER E) else s
         | None => str (INPUT_FOLDER E)
         end;
   nl +:+ rule "-"; "HOW TO USE:"; rule "-";
   nl +:+ "1. Put your MP3 files in the 'input' folder:";
   "   " +:+ str (INPUT_FOLDER E);
   nl +:+ "2. Run: python transcribe.py";
   nl +:+ "3. Find transcriptions in the 'output' folder:";
   "   " +:+ str (OUTPUT_FOLDER E);
   nl +:+ "OR specify a file/folder directly:";
   "   python transcribe.py episode.mp3";
   "   python transcribe.py C:\Podcasts\MyShow"].

End Statements.

(** ** A small world to run the script in *)

Definition ex_clock (n : nat) : datetime :=
  {| year := 2024; month := 3; day := 7; hour := 9; minute := 5;
     second := n mod 60 |}.

Definition ex_text (audio : string) : transcription :=
  {| text := "  hello from " +:+ audio +:+ " " |}.

(** A model that transcribes everything. *)
Definition good_model : Model := {| transcribe := fun a => inr (ex_text a) |}.

Definition corrupt_audio : exception := Raise "RuntimeError" "corrupt audio" None.

(** A model that raises on the audio file [bad]. *)
Definition picky_model (bad : string) : Model :=
  {| transcribe := fun a => if String.eqb a bad then inl corrupt_audio
                            else inr (ex_text a) |}.

(** The limit of the usual file systems on the length of one name. *)
Definition NAME_MAX : nat := 255.

Definition ENAMETOOLONG : path -> exception :=
  os_error "OSError" 36 "File name too long".

(** An [os.stat] that refuses the paths with a name above [NAME_MAX], and
    no other. *)
Definition name_too_long (p : path) : option exception :=
  if existsb (fun n => NAME_MAX <? String.length n) p
  then Some (ENAMETOOLONG p) else None.

(** A name of 300 characters. *)
Definition long_name : string := PyStr.repeat_char "a" 300.

Definition ex_env (case_sensitive : bool) (load : exception + Model) : env :=
  {| glob_case_sensitive := case_sensitive;
     SCRIPT_DIR := ["app"];
     clock := ex_clock;
     whisper_load_model := fun _ => load;
     stat_error := name_too_long |}.

(** The script in [app] with its two folders, and a folder [pod] holding
    the regular files [entries]. *)
Definition ex_fs (entries : list string) : gmap path node :=
  list_to_map
    ([([], Dir ["app"; "pod"]);
      (["app"], Dir ["transcribe.py"; "input"; "output"]);
      (["app"; "transcribe.py"], File "import whisper");
      (["app"; "input"], Dir []);
      (["app"; "output"], Dir []);
      (["pod"], Dir entries)]
     ++ map (fun n => (["pod"; n], File "ID3")) entries).

Definition ex_world (entries : list string) : world :=
  {| fs := ex_fs entries; stdout := []; clock_reads := 0; calls := [] |}.

(** The same, except that [app/input] is a regular file. *)
Definition blocked_fs : gmap path node :=
  list_to_map
    [([], Dir ["app"; "pod"]);
     (["app"], Dir ["transcribe.py"; "input"]);
     (["app"; "transcribe.py"], File "import whisper");
     (["app"; "input"], File "notes");
     (["pod"], Dir ["a.mp3"]);
     (["pod"; "a.mp3"], File "ID3")].

Definition blocked_world : world :=
  {| fs := blocked_fs; stdout := []; clock_reads := 0; calls := [] |}.

(** What [whisper.load_model] raises when the model cannot be fetched. *)
Definition download_failed : exception :=
  Raise "RuntimeError" "model download failed" None.

(** A checkout that was never run: the script alone in [app], and the files
    [entries] in [pod]. *)
Definition fresh_fs (entries : list string) : gmap path node :=
  list_to_map
    ([([], Dir ["app"; "pod"]);
      (["app"], Dir ["transcribe.py"]);
      (["app"; "transcribe.py"], File "import whisper");
      (["pod"], Dir entries)]
     ++ map (fun n => (["pod"; n], File "ID3")) entries).

Definition fresh_world (entries : list string) : world :=
  {| fs := fresh_fs entries; stdout := []; clock_reads := 0; calls := [] |}.



(** A model that hears nothing: its text is white space. *)
Definition silent_model : Model :=
  {| transcribe := fun _ => inr {| text := "  " +:+ nl |} |}.

(** * Properties *)

(** ** Strings and paths *)

Section PathFacts.

Import PyStr.

Lemma app_String a s t : String a s +:+ t = String a (s +:+ t).
Proof. reflexivity. Qed.

Lemma app_empty t : EmptyString +:+ t = t.
Proof. reflexivity. Qed.

Lemma split_cons c s : exists h t, split c s = h :: t.
Proof.
  induction s as [|a s IH]; simpl; eauto.
  destruct (Ascii.eqb a c); eauto.
  destruct IH as (h & t & ->). eauto.
Qed.

Lemma split_free c s : contains c s = false -> split c s = [s].
Proof.
  induction s as [|a s IH]; simpl; [done|].
  intros H. apply orb_false_iff in H as [Ha Hs].
  rewrite Ha, (IH Hs). done.
Qed.

Lemma split_parts_free c s x : In x (split c s) -> contains c x = false.
Proof.
  revert x. induction s as [|a s IH]; simpl; intros x.
  - intros [<-|[]]. done.
  - destruct (Ascii.eqb a c) eqn:Ha.
    + intros [<-|Hx]; [done|auto].
    + destruct (split_cons c s) as (h & t & Hs). rewrite Hs in *.
      intros [<-|Hx].
      * simpl. rewrite Ha. apply IH. by left.
      * apply IH. by right.
Qed.

Lemma contains_app c a b : contains c (a +:+ b) = contains c a || contains c b.
Proof.
  induction a as [|x a IH]; [done|].
  rewrite app_String. simpl. by rewrite IH, orb_assoc.
Qed.

Lemma split_app_sep c a b :
  contains c a = false -> split c (a +:+ String c b) = a :: split c b.
Proof.
  induction a as [|x a IH].
  - intros _. rewrite app_empty. simpl. by rewrite Ascii.eqb_refl.
  - intros H. simpl in H. apply orb_false_iff in H as [Hx Ha].
    rewrite app_String. simpl. rewrite Hx, (IH Ha). done.
Qed.

(** [split] undoes [join] on parts that do not hold the separator. *)
Lemma split_join c l :
  l <> [] -> Forall (fun x => contains c x = false) l ->
  split c (join (chr c) l) = l.
Proof.
  induction l as [|x l IH]; [done|]. intros _ Hl.
  apply Forall_cons in Hl as [Hx Hl]. simpl.
  destruct l as [|y l].
  - by apply split_free.
  - change (x +:+ chr c +:+ join (chr c) (y :: l))
      with (x +:+ String c (join (chr c) (y :: l))).
    rewrite split_app_sep by done. f_equal. by apply IH.
Qed.

Lemma substring_all s : String.substring 0 (String.length s) s = s.
Proof. induction s as [|a s IH]; simpl; [done|]. by rewrite IH. Qed.

Lemma slice_from_0 s : slice_from 0 s = s.
Proof. unfold slice_from. rewrite Nat.sub_0_r. apply substring_all. Qed.

Lemma slice_from_S n a s : slice_from (S n) (String a s) = slice_from n s.
Proof. reflexivity. Qed.

Lemma contains_substring c n m s :
  contains c s = false -> contains c (String.substring n m s) = false.
Proof.
  revert n m. induction s as [|a s IH]; intros n m H.
  - by destruct n, m.
  - simpl in H. apply orb_false_iff in H as [Ha Hs].
    destruct n, m; simpl; auto. rewrite Ha. simpl. auto.
Qed.

Lemma str_length_app a b :
  String.length (a +:+ b) = String.length a + String.length b.
Proof.
  induction a as [|x a IH]; [done|]. rewrite app_String. simpl. by rewrite IH.
Qed.

Lemma str_app_assoc a b c : (a +:+ b) +:+ c = a +:+ (b +:+ c).
Proof.
  induction a as [|x a IH]; [done|]. rewrite !app_String. by rewrite IH.
Qed.

Lemma Forall_filter_keep l :
  Forall (fun x => contains slash x = false) l ->
  Forall (fun x => contains slash x = false /\ keep_part x = true) (List.filter keep_part l).
Proof.
  induction 1 as [|x l Hx Hl IH]; simpl; [constructor|].
  destruct (keep_part x) eqn:Hk; [constructor|]; auto.
Qed.

Lemma part_ok_not_anchor x : part_ok x -> is_anchor x = false.
Proof.
  intros [Hs _]. unfold is_anchor.
  destruct x as [|a x]; [done|].
  simpl in Hs. apply orb_false_iff in Hs as [Ha _].
  destruct (String.eqb_spec (String a x) "/") as [[= -> ->]|_]; [done|].
  destruct (String.eqb_spec (String a x) "//") as [[= -> ->]|_]; [done|]. done.
Qed.

Lemma Path_parts_ok s :
  exists root comps, Path s = (if String.eqb root "" then [] else [root]) ++ comps
    /\ (root = "" \/ root = "/" \/ root = "//")%string /\ Forall part_ok comps.
Proof.
  unfold Path. destruct (splitroot s) as [root rel] eqn:Hr.
  exists root, (List.filter keep_part (split slash rel)). split; [done|]. split.
  - unfold splitroot in Hr. repeat case_match; inversion Hr; auto.
  - apply Forall_filter_keep. apply Forall_forall. intros x Hx.
    apply list_elem_of_In in Hx.
    eapply split_parts_free; eauto.
Qed.

Lemma tail_parts_Path root comps :
  (root = "" \/ root = "/" \/ root = "//")%string -> Forall part_ok comps ->
  tail_parts ((if String.eqb root "" then [] else [root]) ++ comps) = comps
  /\ anchor ((if String.eqb root "" then [] else [root]) ++ comps) = root.
Proof.
  intros Hroot Hc. destruct Hroot as [->|[->| ->]]; simpl; auto.
  destruct comps as [|x comps]; [done|].
  apply Forall_cons in Hc as [Hx _]. simpl.
  by rewrite (part_ok_not_anchor x Hx).
Qed.

Lemma join_cons_ne x l : l <> [] -> join "/" (x :: l) = x +:+ String slash (join "/" l).
Proof. destruct l; [done|]. reflexivity. Qed.

Lemma part_ok_head x : part_ok x -> exists a r, x = String a r /\ Ascii.eqb a slash = false.
Proof.
  intros [Hs Hk]. destruct x as [|a r]; [done|].
  simpl in Hs. apply orb_false_iff in Hs as [Ha _]. eauto.
Qed.

Lemma filter_keep_ok l : Forall part_ok l -> List.filter keep_part l = l.
Proof.
  induction 1 as [|x l [_ Hx] Hl IH]; simpl; [done|]. by rewrite Hx, IH.
Qed.

(** A relative, non-empty join starts with a character that is no slash. *)
Lemma join_head comps :
  comps <> [] -> Forall part_ok comps ->
  exists a r, join "/" comps = String a r /\ Ascii.eqb a slash = false.
Proof.
  destruct comps as [|x l]; [done|]. intros _ H.
  apply Forall_cons in H as [Hx _].
  destruct (part_ok_head x Hx) as (a & r & -> & Ha).
  destruct l; simpl; eauto.
Qed.


Lemma splitroot_relative a r :
  Ascii.eqb a slash = false -> splitroot (String a r) = (EmptyString, String a r).
Proof.
  intros Ha. unfold splitroot. simpl.
  change (Ascii.eqb a "/") with (Ascii.eqb a slash). by rewrite Ha.
Qed.

Lemma splitroot_one rel :
  startswith rel "/" = false -> splitroot (String slash rel) = ("/"%string, rel).
Proof.
  intros H. unfold splitroot.
  change (startswith (String slash rel) "/") with true.
  change (startswith (String slash rel) "//") with (startswith rel "/").
  rewrite H. simpl. by rewrite slice_from_S, slice_from_0.
Qed.

Lemma splitroot_two rel :
  startswith rel "/" = false ->
  splitroot (String slash (String slash rel)) = ("//"%string, rel).
Proof.
  intros H. unfold splitroot.
  change (startswith (String slash (String slash rel)) "/") with true.
  change (startswith (String slash (String slash rel)) "//") with true.
  change (startswith (String slash (String slash rel)) "///")
    with (startswith rel "/").
  rewrite H. simpl. by rewrite !slice_from_S, slice_from_0.
Qed.

Lemma startswith_slash_head a r :
  Ascii.eqb a slash = false -> startswith (String a r) "/" = false.
Proof. intros Ha. simpl. change (Ascii.eqb a "/") with (Ascii.eqb a slash). by rewrite Ha. Qed.

Lemma split_join_parts comps :
  comps <> [] -> Forall part_ok comps ->
  List.filter keep_part (split slash (join "/" comps)) = comps.
Proof.
  intros Hne Hc. change "/"%string with (chr slash).
  rewrite (split_join slash comps); [by apply filter_keep_ok|done|].
  eapply Forall_impl; [exact Hc|]. by intros ? [? _].
Qed.

Lemma Path_join comps :
  comps <> [] -> Forall part_ok comps -> Path (join "/" comps) = comps.
Proof.
  intros Hne Hc. destruct (join_head comps Hne Hc) as (a & r & Hj & Ha).
  unfold Path. rewrite Hj, (splitroot_relative a r Ha), <- Hj. simpl.
  by apply split_join_parts.
Qed.

Lemma Path_str_Path s : Path (str (Path s)) = Path s.
Proof.
  destruct (Path_parts_ok s) as (root & comps & -> & Hroot & Hc).
  destruct (tail_parts_Path root comps Hroot Hc) as [Ht Ha].
  unfold str. rewrite Ht, Ha.
  destruct (decide (comps = [])) as [->|Hne].
  - destruct Hroot as [->|[->| ->]]; reflexivity.
  - destruct (join_head comps Hne Hc) as (a & r & Hj & Hsl).
    assert (Hp := Path_join comps Hne Hc).
    assert (Hs := startswith_slash_head a r Hsl). rewrite <- Hj in Hs.
    destruct Hroot as [->|[->| ->]].
    + simpl. destruct comps; [done|]. exact Hp.
    + simpl. unfold Path.
      change ("/" +:+ join "/" comps) with (String slash (join "/" comps)).
      rewrite (splitroot_one _ Hs). simpl. f_equal. by apply split_join_parts.
    + simpl. unfold Path.
      change ("//" +:+ join "/" comps)
        with (String slash (String slash (join "/" comps))).
      rewrite (splitroot_two _ Hs). simpl. f_equal. by apply split_join_parts.
Qed.

Lemma tail_parts_snoc d n :
  is_anchor n = false -> exists t, tail_parts (d ++ [n]) = t ++ [n].
Proof.
  intros Hn. destruct d as [|a d]; simpl.
  - rewrite Hn. by exists [].
  - destruct (is_anchor a); [by exists d|by exists (a :: d)].
Qed.

Lemma name_snoc d n : is_anchor n = false -> name (d ++ [n]) = n.
Proof.
  intros Hn. unfold name. destruct (tail_parts_snoc d n Hn) as [t ->].
  apply last_last.
Qed.

Lemma parent_snoc d n : is_anchor n = false -> parent (d ++ [n]) = d.
Proof.
  intros Hn. unfold parent. destruct (tail_parts_snoc d n Hn) as [t ->].
  destruct t; simpl; apply removelast_last.
Qed.

Lemma snoc_ne {A} (d : list A) n : d ++ [n] <> d.
Proof.
  intros H. apply (f_equal (@length A)) in H. rewrite length_app in H.
  simpl in H. lia.
Qed.

Lemma Path_single n : part_ok n -> Path n = [n].
Proof. intros Hn. apply (Path_join [n]); [done|by constructor]. Qed.

Lemma joinpath_single d n : part_ok n -> joinpath d n = d ++ [n].
Proof.
  intros Hn. unfold joinpath. rewrite (Path_single n Hn). simpl.
  by rewrite (part_ok_not_anchor n Hn).
Qed.

Lemma name_Path_free s : contains slash (name (Path s)) = false.
Proof.
  destruct (Path_parts_ok s) as (root & comps & -> & Hroot & Hc).
  unfold name. rewrite (proj1 (tail_parts_Path root comps Hroot Hc)).
  clear Hroot. induction Hc as [|x l [Hx _] Hl IH]; [done|].
  destruct l; [done|]. exact IH.
Qed.

Lemma stem_of_name_free n :
  contains slash n = false -> contains slash (stem_of_name n) = false.
Proof.
  intros Hn. unfold stem_of_name. case_match; [|done].
  by apply contains_substring.
Qed.

Lemma txt_name_ok s : contains slash s = false -> part_ok (s +:+ ".txt").
Proof.
  intros Hs. split.
  - rewrite contains_app, Hs. reflexivity.
  - unfold keep_part.
    destruct (String.eqb_spec (s +:+ ".txt") "") as [H|_];
      [apply (f_equal String.length) in H; rewrite str_length_app in H;
       simpl in H; lia|].
    destruct (String.eqb_spec (s +:+ ".txt") ".") as [H|_];
      [apply (f_equal String.length) in H; rewrite str_length_app in H;
       simpl in H; lia|].
    done.
Qed.

Lemma str_app_inj_r x y s : x +:+ s = y +:+ s -> x = y.
Proof.
  revert y. induction x as [|c x IH]; intros [|c' y] H; [done| | |].
  - apply (f_equal String.length) in H.
    rewrite app_empty, app_String in H. simpl in H.
    rewrite str_length_app in H. lia.
  - apply (f_equal String.length) in H.
    rewrite app_empty, app_String in H. simpl in H.
    rewrite str_length_app in H. lia.
  - rewrite !app_String in H. injection H as -> H. f_equal. by apply IH.
Qed.

End PathFacts.

(** ** The file system *)

Section FsFacts.

Implicit Types (f : gmap path node) (p q : path).

Lemma is_dir_lookup f p : isdir f p = true <-> exists l, f !! p = Some (Dir l).
Proof.
  unfold isdir. destruct (f !! p) as [[c|l]|]; split; try done; eauto.
  - by intros [l [=]].
  - by intros [l [=]].
Qed.

Lemma read_text_lookup f p c : read_text f p = Some c <-> f !! p = Some (File c).
Proof.
  unfold read_text. destruct (f !! p) as [[c'|l]|]; split; congruence.
Qed.

Lemma is_file_read_text f p : isfile f p = true <-> exists c, read_text f p = Some c.
Proof.
  unfold isfile, read_text. destruct (f !! p) as [[c'|l]|]; split; try done; eauto.
  - by intros [c [=]].
  - by intros [c [=]].
Qed.

(** Opening for writing leaves an empty file at [p]; directories stay
    directories and every other file keeps its text. *)
Lemma open_w_inv f p f' :
  parent p <> p -> open_w f p = inr f' ->
  read_text f' p = Some EmptyString
  /\ (forall q, isdir f' q = isdir f q)
  /\ (forall q, q <> p -> read_text f' q = read_text f q).
Proof.
  intros Hp. unfold open_w.
  destruct (f !! p) as [[c|l]|] eqn:Hfp; [| done |].
  - intros [= <-]. split; [|split].
    + unfold read_text. by rewrite lookup_insert_eq.
    + intros q. unfold isdir. destruct (decide (q = p)) as [->|Hq].
      * by rewrite lookup_insert_eq, Hfp.
      * by rewrite lookup_insert_ne.
    + intros q Hq. unfold read_text. by rewrite lookup_insert_ne.
  - destruct (f !! parent p) as [[c|l]|] eqn:Hpar; [done| |done].
    intros [= <-]. unfold create. split; [|split].
    + unfold read_text. by rewrite lookup_insert_eq.
    + intros q. unfold isdir. destruct (decide (q = p)) as [->|Hq].
      * by rewrite lookup_insert_eq, Hfp.
      * rewrite lookup_insert_ne by done.
        destruct (decide (q = parent p)) as [->|Hq'].
        -- by rewrite lookup_insert_eq, Hpar.
        -- by rewrite lookup_insert_ne.
    + intros q Hq. unfold read_text. rewrite lookup_insert_ne by done.
      destruct (decide (q = parent p)) as [->|Hq'].
      * by rewrite lookup_insert_eq, Hpar.
      * by rewrite lookup_insert_ne.
Qed.

(** [open(p, "w")] raises exactly [IsADirectoryError] on a directory. *)
Lemma open_w_dir f p : isdir f p = true -> open_w f p = inl (IsADirectoryError p).
Proof.
  intros H. apply is_dir_lookup in H as [l H]. unfold open_w. by rewrite H.
Qed.

(** It succeeds inside a directory, on anything but a directory. *)
Lemma open_w_ok f p :
  isdir f (parent p) = true -> isdir f p = false ->
  exists f', open_w f p = inr f'.
Proof.
  intros Hpar Hp. apply is_dir_lookup in Hpar as [l Hpar].
  unfold open_w, isdir in *. destruct (f !! p) as [[c|l']|]; [eauto|done|].
  rewrite Hpar. eauto.
Qed.

(** On an existing file it truncates, and touches nothing else. *)
Lemma open_w_file f p c :
  read_text f p = Some c -> open_w f p = inr (<[p := File EmptyString]> f).
Proof.
  intros H. apply read_text_lookup in H. unfold open_w. by rewrite H.
Qed.

Lemma write_read_text f p s c :
  read_text f p = Some c -> read_text (write f p s) p = Some (c +:+ s).
Proof.
  intros H. apply read_text_lookup in H. unfold read_text, write.
  by rewrite lookup_alter_eq, H.
Qed.

Lemma write_read_text_ne f p s q :
  q <> p -> read_text (write f p s) q = read_text f q.
Proof. intros H. unfold read_text, write. by rewrite lookup_alter_ne. Qed.

Lemma write_is_dir f p s q : isdir (write f p s) q = isdir f q.
Proof.
  unfold isdir, write. destruct (decide (q = p)) as [->|H].
  - rewrite lookup_alter_eq. by destruct (f !! p) as [[c|l]|].
  - by rewrite lookup_alter_ne.
Qed.

(** [mkdir(exist_ok=True)] leaves a directory at [p], keeps every other
    directory and changes the text of no file. *)
Lemma mkdir_exist_ok_inv f p f' :
  parent p <> p -> mkdir_exist_ok f p = inr f' ->
  isdir f' p = true
  /\ (forall q, read_text f' q = read_text f q)
  /\ (forall q, isdir f q = true -> isdir f' q = true).
Proof.
  intros Hp. unfold mkdir_exist_ok.
  destruct (f !! p) as [[c|l]|] eqn:Hfp; [done| |].
  - intros [= <-]. split; [|done]. unfold isdir. by rewrite Hfp.
  - destruct (f !! parent p) as [[c|l]|] eqn:Hpar; [done| |done].
    intros [= <-]. unfold create. split; [|split].
    + unfold isdir. by rewrite lookup_insert_eq.
    + intros q. unfold read_text. destruct (decide (q = p)) as [->|Hq].
      * by rewrite lookup_insert_eq, Hfp.
      * rewrite lookup_insert_ne by done.
        destruct (decide (q = parent p)) as [->|Hq'].
        -- by rewrite lookup_insert_eq, Hpar.
        -- by rewrite lookup_insert_ne.
    + intros q. unfold isdir. destruct (decide (q = p)) as [->|Hq].
      * by rewrite lookup_insert_eq.
      * rewrite lookup_insert_ne by done.
        destruct (decide (q = parent p)) as [->|Hq'].
        -- by rewrite lookup_insert_eq.
        -- by rewrite lookup_insert_ne.
Qed.

End FsFacts.

(** ** [transcribe_file], step by step *)

(** From here on the library functions are kept folded: the proofs below are
    about the script, not about the text these functions compute. *)
#[global] Arguments PyStr.str_of_nat : simpl never.
#[global] Arguments PyStr.zfill : simpl never.
#[global] Arguments PyStr.strip : simpl never.
#[global] Arguments PyStr.count_words : simpl never.
#[global] Arguments PyStr.lower : simpl never.
#[global] Arguments strftime : simpl never.
#[global] Arguments rule : simpl never.
#[global] Arguments Path : simpl never.
#[global] Arguments str : simpl never.
#[global] Arguments name : simpl never.
#[global] Arguments stem : simpl never.
#[global] Arguments suffix : simpl never.
#[global] Arguments joinpath : simpl never.
#[global] Arguments output_path_of : simpl never.
#[global] Arguments write : simpl never.
#[global] Arguments open_w : simpl never.
#[global] Arguments mkdir_exist_ok : simpl never.
#[global] Arguments MODEL_SIZE : simpl never.
#[global] Arguments INPUT_FOLDER : simpl never.
#[global] Arguments OUTPUT_FOLDER : simpl never.

(** Two worlds are equal when their four fields are. *)
Lemma world_ext (w1 w2 : world) :
  fs w1 = fs w2 -> stdout w1 = stdout w2 ->
  clock_reads w1 = clock_reads w2 -> calls w1 = calls w2 -> w1 = w2.
Proof. destruct w1, w2. simpl. by intros -> -> -> ->. Qed.

(** Running the monad: only the plumbing is unfolded. *)
Ltac wsimpl :=
  unfold mbind, M_bind, bind, print, ret, f_write, datetime_now; simpl.

(** Two results are equal when their worlds are, field by field; the lines
    printed are compared up to the bracketing of [++]. *)
Ltac world_eq :=
  f_equal; apply world_ext; simpl; rewrite <- ?app_assoc; reflexivity.

Section TranscribeFile.

Context (E : env).

Lemma output_path_of_eq d audio :
  output_path_of d audio = d ++ [stem (Path audio) +:+ ".txt"].
Proof.
  unfold output_path_of. apply joinpath_single, txt_name_ok.
  apply stem_of_name_free, name_Path_free.
Qed.

Lemma output_name_not_anchor audio :
  is_anchor (stem (Path audio) +:+ ".txt") = false.
Proof.
  apply part_ok_not_anchor, txt_name_ok, stem_of_name_free, name_Path_free.
Qed.

Lemma output_path_parent d audio : parent (output_path_of d audio) = d.
Proof.
  rewrite output_path_of_eq. apply parent_snoc, output_name_not_anchor.
Qed.

Lemma output_path_name d audio :
  name (output_path_of d audio) = stem (Path audio) +:+ ".txt".
Proof.
  rewrite output_path_of_eq. apply name_snoc, output_name_not_anchor.
Qed.

Lemma output_path_not_parent d audio :
  parent (output_path_of d audio) <> output_path_of d audio.
Proof.
  rewrite output_path_parent, output_path_of_eq. intros H.
  symmetry in H. by apply snoc_ne in H.
Qed.

(** The three ways [transcribe_file] ends: the model raises, [open] raises,
    or the artifact is written and its path returned. *)
Lemma transcribe_file_run m audio d w :
  transcribe_file E m audio (Some d) w =
  match transcribe m (str (Path audio)) with
  | inl e => (inl (Exc e), announced m audio w)
  | inr r =>
      match open_w (fs w) (output_path_of d audio) with
      | inl e => (inl (Exc e), announced m audio w)
      | inr f' => (inr (str (output_path_of d audio)), saved E m audio d r f' w)
      end
  end.
Proof.
  unfold transcribe_file, model_transcribe, fs_op.
  fold (output_path_of d audio). wsimpl.
  destruct (transcribe m (str (Path audio))) as [e|r]; [world_eq|]. wsimpl.
  destruct (open_w (fs w) (output_path_of d audio)) as [e|f']; [world_eq|].
  world_eq.
Qed.

Lemma transcribe_file_default m audio :
  transcribe_file E m audio None = transcribe_file E m audio (Some (OUTPUT_FOLDER E)).
Proof. reflexivity. Qed.

(** What a finished [transcribe_file] leaves on disk. *)
Lemma saved_read_text m audio d r f' w :
  read_text f' (output_path_of d audio) = Some EmptyString ->
  read_text (fs (saved E m audio d r f' w)) (output_path_of d audio)
  = Some (artifact_text (name (Path audio))
            (strftime (clock E (clock_reads w))) (text r)).
Proof.
  intros H. unfold saved. simpl.
  erewrite write_read_text; [|do 4 apply write_read_text; exact H].
  f_equal. unfold artifact_text. rewrite app_empty, !str_app_assoc. reflexivity.
Qed.

Lemma saved_read_text_ne m audio d r f' w q :
  q <> output_path_of d audio ->
  read_text (fs (saved E m audio d r f' w)) q = read_text f' q.
Proof.
  intros H. unfold saved. simpl. by rewrite !write_read_text_ne.
Qed.

Lemma saved_is_dir m audio d r f' w q :
  isdir (fs (saved E m audio d r f' w)) q = isdir f' q.
Proof. unfold saved. simpl. by rewrite !write_is_dir. Qed.

End TranscribeFile.

(** ** Timestamps *)

Section Timestamps.

Import PyStr.



(** From the year 1000 on the year has four digits as it is: the padding of
    [strftime] adds nothing to it. *)
Lemma zfill4_year y :
  (1000 <= Z.of_nat y <= 9999)%Z -> zfill 4 (str_of_nat y) = str_of_nat y.
Proof.
  intros Hy.
  assert (Hall : forallb (fun y => String.eqb (zfill 4 (str_of_nat y)) (str_of_nat y))
                   (seq 1000 (Z.to_nat 9000)) = true) by (vm_compute; reflexivity).
  rewrite forallb_forall in Hall. apply String.eqb_eq, Hall, in_seq. lia.
Qed.


End Timestamps.

(** ** Trimming *)

Section Strip.

Import PyStr.

Lemma lstrip_spec s :
  exists pre, s = pre +:+ lstrip s /\ all_space pre = true
              /\ head_is_space (lstrip s) = false.
Proof.
  induction s as [|c s (pre & Hs & Hpre & Hhd)]; [by exists EmptyString|].
  simpl. destruct (isspace c) eqn:Hc.
  - exists (String c pre). rewrite app_String, <- Hs. simpl.
    by rewrite Hc, Hpre.
  - exists EmptyString. simpl. by rewrite Hc.
Qed.

Lemma rstrip_spec s :
  exists post, s = rstrip s +:+ post /\ all_space post = true
               /\ last_is_space (rstrip s) = false.
Proof.
  induction s as [|c s (post & Hs & Hpost & Hlast)]; [by exists EmptyString|].
  simpl. destruct (rstrip s) as [|c' r] eqn:Hr.
  - destruct (isspace c) eqn:Hc.
    + exists (String c post). rewrite app_empty in *. subst s.
      simpl. by rewrite Hc, Hpost.
    + exists post. rewrite app_empty in Hs. subst s.
      unfold chr. rewrite app_String, app_empty. simpl. by rewrite Hc.
  - exists post. rewrite app_String, <- Hs. by split.
Qed.

Lemma rstrip_head s : head_is_space s = false -> head_is_space (rstrip s) = false.
Proof.
  destruct s as [|c s]; [done|]. simpl. intros Hc.
  destruct (rstrip s); [by rewrite Hc|done].
Qed.

(** [strip] removes white space at both ends and nothing else. *)
Lemma strip_spec s :
  exists pre post,
    s = pre +:+ strip s +:+ post
    /\ all_space pre = true /\ all_space post = true
    /\ head_is_space (strip s) = false /\ last_is_space (strip s) = false.
Proof.
  destruct (lstrip_spec s) as (pre & Hs & Hpre & Hhd).
  destruct (rstrip_spec (lstrip s)) as (post & Hl & Hpost & Hlast).
  exists pre, post. unfold strip. rewrite <- Hl. repeat split; try done.
  by apply rstrip_head.
Qed.





End Strip.

(** ** The transcription call and the artifact *)

Section ResultWriter.

Context (E : env).


(** C7. After a first artifact for a source file, a second call for a source
    of the same stem returns the same destination; the file then holds the
    second transcript and nothing of the first, no other file appears or
    changes, and the lines printed are those of any successful call. *)
Theorem transcribe_file_overwrites m1 m2 audio1 audio2 d w o1 w1 r2 :
  stem (Path audio1) = stem (Path audio2) ->
  transcribe_file E m1 audio1 (Some d) w = (inr o1, w1) ->
  transcribe m2 (str (Path audio2)) = inr r2 ->
  let out := output_path_of d audio2 in
  exists w2,
    transcribe_file E m2 audio2 (Some d) w1 = (inr o1, w2)
    /\ o1 = str out
    /\ read_text (fs w2) out
       = Some (artifact_text (name (Path audio2))
                 (strftime (clock E (clock_reads w1))) (text r2))
    /\ (forall q, q <> out -> read_text (fs w2) q = read_text (fs w1) q)
    /\ (forall q, isdir (fs w2) q = isdir (fs w1) q)
    /\ stdout w2 = stdout w1 ++
         [nl +:+ rule "="; "Transcribing: " +:+ name (Path audio2); rule "=";
          "[OK] Saved transcription to: " +:+ str out;
          "     Word count: ~"
            +:+ PyStr.str_of_nat (PyStr.count_words (PyStr.strip (text r2)))
            +:+ " words"].
Proof.
  intros Hstem Hfirst Hm2 out.
  assert (Hout : output_path_of d audio1 = out)
    by (unfold out, output_path_of; by rewrite Hstem).
  rewrite transcribe_file_run, Hout in Hfirst.
  destruct (transcribe m1 (str (Path audio1))) as [e|r1]; [done|].
  destruct (open_w (fs w) out) as [e|f1] eqn:Hopen1; [done|].
  injection Hfirst as <- <-.
  destruct (open_w_inv _ _ _ (output_path_not_parent _ _) Hopen1) as (Hempty & _ & _).
  pose proof (saved_read_text E m1 audio1 d r1 f1 w) as Hold.
  rewrite Hout in Hold. specialize (Hold Hempty).
  rewrite transcribe_file_run, Hm2. fold out.
  rewrite (open_w_file _ _ _ Hold).
  eexists. split; [reflexivity|]. split; [done|].
  assert (Hnew : read_text (<[out := File EmptyString]>
                              (fs (saved E m1 audio1 d r1 f1 w))) out
                 = Some EmptyString)
    by (unfold read_text; by rewrite lookup_insert_eq).
  repeat split.
  - by apply saved_read_text.
  - intros q Hq. rewrite saved_read_text_ne by done.
    unfold read_text. by rewrite lookup_insert_ne.
  - intros q. rewrite saved_is_dir. unfold isdir.
    destruct (decide (q = out)) as [->|Hq].
    + rewrite lookup_insert_eq. apply read_text_lookup in Hold. by rewrite Hold.
    + by rewrite lookup_insert_ne.
Qed.

End ResultWriter.

(** ** Sorting by a key *)

Section SortBy.

Context {A : Type} (key : A -> string).

Lemma ltb_leb a b : String.ltb a b = true -> String.le a b.
Proof.
  unfold String.ltb, String.le, String.leb.
  by destruct (String.compare a b).
Qed.

Lemma not_ltb_leb a b : String.ltb a b = false -> String.le b a.
Proof.
  unfold String.ltb, String.le, String.leb.
  rewrite (String.compare_antisym a b).
  by destruct (String.compare b a).
Qed.

Lemma ltb_irrefl a : String.ltb a a = false.
Proof.
  unfold String.ltb. pose proof (String.compare_antisym a a) as H.
  by destruct (String.compare a a).
Qed.

Lemma insert_by_perm x l : insert_by key x l ≡ₚ x :: l.
Proof.
  induction l as [|y l IH]; simpl; [done|].
  destruct (String.ltb (key y) (key x)); [|done].
  rewrite IH. apply Permutation_swap.
Qed.

Lemma sort_by_perm l : sort_by key l ≡ₚ l.
Proof.
  induction l as [|x l IH]; simpl; [done|].
  by rewrite insert_by_perm, IH.
Qed.

Lemma insert_by_sorted x l :
  Sorted (key_le key) l -> Sorted (key_le key) (insert_by key x l).
Proof.
  induction 1 as [|y l Hl IH Hhd]; simpl; [by repeat constructor|].
  destruct (String.ltb (key y) (key x)) eqn:Hlt.
  - constructor; [done|].
    destruct l as [|z l]; simpl in *.
    + constructor. by apply ltb_leb.
    + destruct (String.ltb (key z) (key x)); constructor.
      * by inversion Hhd.
      * by apply ltb_leb.
  - constructor; [by constructor|]. constructor. by apply not_ltb_leb.
Qed.

Lemma sort_by_sorted l : Sorted (key_le key) (sort_by key l).
Proof.
  induction l as [|x l IH]; simpl; [constructor|by apply insert_by_sorted].
Qed.

(** Keys never decrease from left to right in the result. *)
Lemma sort_by_strongly_sorted l : StronglySorted (key_le key) (sort_by key l).
Proof.
  apply Sorted_StronglySorted; [|apply sort_by_sorted].
  intros x y z. unfold key_le. apply (@transitivity _ String.le _).
Qed.

(** The sort is stable: elements of equal key keep their order. *)
Lemma insert_by_stable k x l :
  List.filter (fun y => String.eqb (key y) k) (insert_by key x l)
  = List.filter (fun y => String.eqb (key y) k) (x :: l).
Proof.
  induction l as [|y l IH]; [done|].
  simpl insert_by. destruct (String.ltb (key y) (key x)) eqn:Hlt; [|done].
  simpl in *. rewrite IH.
  destruct (String.eqb_spec (key x) k) as [Hx|Hx]; [|done].
  destruct (String.eqb_spec (key y) k) as [Hy|Hy]; [|done].
  rewrite Hx, Hy, ltb_irrefl in Hlt. done.
Qed.

Lemma sort_by_stable k l :
  List.filter (fun y => String.eqb (key y) k) (sort_by key l)
  = List.filter (fun y => String.eqb (key y) k) l.
Proof.
  induction l as [|x l IH]; [done|].
  simpl sort_by. rewrite insert_by_stable. simpl. by rewrite IH.
Qed.

End SortBy.

(** ** Discovery: [get_mp3_files] *)

Section Discovery.

Context (E : env).

Implicit Types (f : gmap path node) (target : option string).

Lemma is_dir_not_file f p : isdir f p = true -> isfile f p = false.
Proof. unfold isdir, isfile. by destruct (f !! p) as [[c|l]|]. Qed.

(** [is_file] and [is_dir] answer when [os.stat] does not refuse the path,
    and raise what it raises otherwise. *)
Lemma is_file_inr f p b :
  is_file E f p = inr b <-> stat_error E p = None /\ isfile f p = b.
Proof.
  unfold is_file. destruct (stat_error E p); split; try done.
  - by intros [[=] _].
  - by intros [= ->].
  - by intros [_ ->].
Qed.

Lemma is_dir_inr f p b :
  is_dir E f p = inr b <-> stat_error E p = None /\ isdir f p = b.
Proof.
  unfold is_dir. destruct (stat_error E p); split; try done.
  - by intros [[=] _].
  - by intros [= ->].
  - by intros [_ ->].
Qed.

Lemma is_file_inl f p e : is_file E f p = inl e <-> stat_error E p = Some e.
Proof.
  unfold is_file. destruct (stat_error E p); split; try done.
  - by intros [= ->].
  - by intros [= ->].
Qed.

Lemma is_dir_inl f p e : is_dir E f p = inl e <-> stat_error E p = Some e.
Proof.
  unfold is_dir. destruct (stat_error E p); split; try done.
  - by intros [= ->].
  - by intros [= ->].
Qed.

(** [get_mp3_files] raises what [os.stat] raises for the target, and nothing
    else; when the target can be examined, the three branches. *)
Lemma get_mp3_files_stat f target :
  let t := target_of E target in
  get_mp3_files E f target
  = match stat_error E t with
    | Some e => inl e
    | None =>
        inr (if isfile f t && String.eqb (PyStr.lower (suffix t)) ".mp3"
             then [str t]
             else if isdir f t
             then map str (sort_by sort_key
                    (glob_star (glob_case_sensitive E) f t ".mp3"
                     ++ glob_star (glob_case_sensitive E) f t ".MP3"))
             else [])
    end.
Proof.
  cbv zeta. unfold get_mp3_files, is_file, is_dir. fold (target_of E target).
  destruct (stat_error E (target_of E target)); [done|].
  destruct (isfile f (target_of E target) && _); [done|].
  by destruct (isdir f (target_of E target)).
Qed.

Lemma get_mp3_files_inl f target e :
  get_mp3_files E f target = inl e <-> stat_error E (target_of E target) = Some e.
Proof.
  rewrite get_mp3_files_stat.
  destruct (stat_error E (target_of E target)); split; try done.
  - by intros [= ->].
  - by intros [= ->].
Qed.

Lemma get_mp3_files_inr f target l :
  get_mp3_files E f target = inr l -> stat_error E (target_of E target) = None.
Proof.
  rewrite get_mp3_files_stat. by destruct (stat_error E (target_of E target)).
Qed.

(** The directory branch: both globs, sorted by the lower-cased name. *)
Lemma get_mp3_files_dir f target :
  is_dir E f (target_of E target) = inr true ->
  get_mp3_files E f target
  = inr (map str (sort_by sort_key
                    (glob_star (glob_case_sensitive E) f (target_of E target) ".mp3"
                     ++ glob_star (glob_case_sensitive E) f (target_of E target) ".MP3"))).
Proof.
  intros Hd. apply is_dir_inr in Hd as [Hs Hd].
  rewrite get_mp3_files_stat. cbv zeta.
  by rewrite Hs, (is_dir_not_file _ _ Hd), Hd.
Qed.

(** C8. For an existing regular file whose suffix is [.mp3] in any case,
    the result is that one path: the string returned is the way [pathlib]
    writes the path that was given, it parses to that same path, and it is
    the given string when that one was written so already. *)
Theorem get_mp3_files_single_file f s :
  is_file E f (Path s) = inr true ->
  PyStr.lower (suffix (Path s)) = ".mp3" ->
  get_mp3_files E f (Some s) = inr [str (Path s)]
  /\ Path (str (Path s)) = Path s
  /\ (str (Path s) = s -> get_mp3_files E f (Some s) = inr [s]).
Proof.
  intros Hf Hs.
  assert (H : get_mp3_files E f (Some s) = inr [str (Path s)])
    by (unfold get_mp3_files; by rewrite Hf, Hs).
  split; [exact H|]. split; [apply Path_str_Path|].
  intros Hn. by rewrite H, Hn.
Qed.

(** C9, as the script has it. For a target that is neither a regular file
    nor a directory, [get_mp3_files] returns the empty list when [os.stat]
    can examine the path, as it can when nothing is there. When [os.stat]
    raises for another reason (a name too long, a directory that may not be
    searched), [is_file] raises that error again and it leaves
    [get_mp3_files]. *)
Theorem get_mp3_files_missing f target :
  isfile f (target_of E target) = false ->
  isdir f (target_of E target) = false ->
  get_mp3_files E f target
  = match stat_error E (target_of E target) with
    | Some e => inl e
    | None => inr []
    end.
Proof.
  intros Hf Hd. rewrite get_mp3_files_stat. cbv zeta. by rewrite Hf, Hd.
Qed.

(** In a directory the paths found are in the order of their keys. *)
Lemma get_mp3_files_dir_sorted f target :
  is_dir E f (target_of E target) = inr true ->
  exists paths,
    get_mp3_files E f target = inr (map str paths)
    /\ StronglySorted (key_le sort_key) paths
    /\ paths ≡ₚ glob_star (glob_case_sensitive E) f (target_of E target) ".mp3"
              ++ glob_star (glob_case_sensitive E) f (target_of E target) ".MP3".
Proof.
  intros Hd. eexists. split; [by apply get_mp3_files_dir|]. split.
  - apply sort_by_strongly_sorted.
  - apply sort_by_perm.
Qed.

(** With the case-sensitive [glob] of POSIX, an entry is found exactly when
    its name ends in [.mp3] or in [.MP3], written so. *)
Lemma get_mp3_files_dir_posix f target :
  glob_case_sensitive E = true ->
  is_dir E f (target_of E target) = inr true ->
  exists found,
    get_mp3_files E f target = inr found
    /\ forall x, In x found <->
         exists n, In n (scandir f (target_of E target))
                   /\ x = str (target_of E target ++ [n])
                   /\ (PyStr.endswith n ".mp3" = true \/ PyStr.endswith n ".MP3" = true).
Proof.
  intros Hcs Hd. eexists. split; [by apply get_mp3_files_dir|]. intros x.
  rewrite Hcs.
  rewrite in_map_iff. split.
  - intros (p & <- & Hp). apply list_elem_of_In in Hp.
    rewrite sort_by_perm in Hp. apply list_elem_of_In, in_app_iff in Hp.
    unfold glob_star in Hp. rewrite !in_map_iff in Hp.
    destruct Hp as [(n & <- & Hn)|(n & <- & Hn)];
      apply filter_In in Hn as [Hn Hm]; exists n; auto.
  - intros (n & Hn & -> & Hm). exists (target_of E target ++ [n]).
    split; [done|]. apply list_elem_of_In. rewrite sort_by_perm.
    apply list_elem_of_In, in_app_iff. unfold glob_star.
    rewrite !in_map_iff.
    destruct Hm as [Hm|Hm]; [left|right]; exists n; split; try done;
      by apply filter_In.
Qed.

(** With the case-insensitive [glob] of Windows the two patterns match the
    same entries, so each of them is listed twice. *)
Lemma get_mp3_files_dir_windows f target :
  glob_case_sensitive E = false ->
  is_dir E f (target_of E target) = inr true ->
  let found := glob_star false f (target_of E target) ".mp3" in
  get_mp3_files E f target = inr (map str (sort_by sort_key (found ++ found))).
Proof.
  intros Hcs Hd found. rewrite get_mp3_files_dir by done. by rewrite Hcs.
Qed.

End Discovery.

(** The directory of the specification, in each of the orders the system may
    list it, on POSIX: both audio files, lower-case key first, no text file. *)
Lemma get_mp3_files_spec_example load entries :
  entries ≡ₚ ["a.mp3"; "B.MP3"; "c.txt"] ->
  get_mp3_files (ex_env true load) (ex_fs entries) (Some "pod")
  = inr ["pod/a.mp3"; "pod/B.MP3"].
Proof.
  intros H. symmetry in H.
  apply permutations_Permutation, list_elem_of_In in H.
  vm_compute in H.
  repeat (destruct H as [<-|H]; [vm_compute; reflexivity|]).
  destruct H.
Qed.

(** C1, where the script departs from it. On POSIX a directory whose only
    entry is [x.Mp3] yields nothing, although the suffix is [.mp3] up to case
    and the single-file branch accepts the same file. With the
    case-insensitive [glob] of Windows a directory whose only entry is
    [a.mp3] yields that path twice. *)
Theorem get_mp3_files_case_variants :
  get_mp3_files (ex_env true (inr good_model)) (ex_fs ["x.Mp3"]) (Some "pod")
  = inr []
  /\ PyStr.lower (suffix (Path "pod/x.Mp3")) = ".mp3"
  /\ get_mp3_files (ex_env true (inr good_model)) (ex_fs ["x.Mp3"])
       (Some "pod/x.Mp3") = inr ["pod/x.Mp3"]
  /\ get_mp3_files (ex_env false (inr good_model)) (ex_fs ["a.mp3"]) (Some "pod")
     = inr ["pod/a.mp3"; "pod/a.mp3"].
Proof. repeat split; vm_compute; reflexivity. Qed.

(** ** The batch loop *)

Section Batch.

Context (E : env).

Implicit Types (f : gmap path node) (w : world) (m : Model).

Lemma saved_calls m a d r f' w :
  calls (saved E m a d r f' w) = calls w ++ [Transcribe m (str (Path a))].
Proof. reflexivity. Qed.

Lemma saved_clock_reads m a d r f' w :
  clock_reads (saved E m a d r f' w) = S (clock_reads w).
Proof. reflexivity. Qed.

Lemma saved_stdout m a d r f' w :
  stdout (saved E m a d r f' w)
  = stdout w ++
      [nl +:+ rule "="; "Transcribing: " +:+ name (Path a); rule "=";
       "[OK] Saved transcription to: " +:+ str (output_path_of d a);
       "     Word count: ~"
         +:+ PyStr.str_of_nat (PyStr.count_words (PyStr.strip (text r)))
         +:+ " words"].
Proof. reflexivity. Qed.

#[local] Arguments saved : simpl never.

Lemma for_each_print {A} (g : A -> string) (l : list A) w :
  for_each l (fun x => print (g x)) w = (inr tt, add_stdout (map g l) w).
Proof.
  revert w. induction l as [|x l IH]; intros w; simpl.
  - unfold ret. f_equal. apply world_ext; simpl; by rewrite ?app_nil_r.
  - wsimpl. rewrite IH. world_eq.
Qed.

Lemma for_each_print_pair {A B} (g : A -> B -> string) (l : list (A * B)) w :
  for_each l (fun '(i, x) => print (g i x)) w
  = (inr tt, add_stdout (map (fun '(i, x) => g i x) l) w).
Proof.
  revert w. induction l as [|[i x] l IH]; intros w; simpl.
  - unfold ret. f_equal. apply world_ext; simpl; by rewrite ?app_nil_r.
  - wsimpl. rewrite IH. world_eq.
Qed.

Lemma map_snd_enumerate {A} (l : list A) start : map snd (enumerate l start) = l.
Proof.
  revert start. induction l as [|x l IH]; intros start; simpl; [done|].
  by rewrite IH.
Qed.

Lemma enumerate_app {A} (l1 l2 : list A) start :
  enumerate (l1 ++ l2) start
  = enumerate l1 start ++ enumerate l2 (start + length l1).
Proof.
  revert start. induction l1 as [|x l1 IH]; intros start; simpl.
  - by rewrite Nat.add_0_r.
  - rewrite IH. do 3 f_equal. lia.
Qed.

(** The loop over a concatenation is the loop over its two parts in turn. *)
Lemma batch_loop_app m total todo1 todo2 outs w :
  batch_loop E m total (todo1 ++ todo2) outs w
  = match batch_loop E m total todo1 outs w with
    | (inr outs', w') => batch_loop E m total todo2 outs' w'
    | (inl s, w') => (inl s, w')
    end.
Proof.
  revert outs w. induction todo1 as [|[idx a] todo1 IH]; intros outs w.
  - reflexivity.
  - simpl. unfold mbind, M_bind, bind.
    destruct (print _ w) as [[s|[]] w0]; [done|].
    destruct (try_except _ _ w0) as [[s|outs'] w1]; [done|]. apply IH.
Qed.

(** One turn of the loop on a file whose processing raises: the exception
    is caught and reported, and the loop goes on with the same list. *)
Lemma batch_loop_cons_fail m total idx a todo outs w e :
  failure_of E m (fs w) a = Some e ->
  batch_loop E m total ((idx, a) :: todo) outs w
  = batch_loop E m total todo outs
      (add_stdout [error_line a e]
         (announced m a (add_stdout [processing_line idx total] w))).
Proof.
  intros Hfail. simpl. unfold mbind at 1, M_bind at 1, bind at 1, print at 1.
  unfold mbind at 1, M_bind at 1, bind at 1, try_except.
  unfold mbind at 1, M_bind at 1, bind at 1.
  rewrite transcribe_file_run. unfold failure_of in Hfail.
  destruct (transcribe m (str (Path a))) as [e'|r].
  - injection Hfail as ->. wsimpl. reflexivity.
  - change (fs (add_stdout [nl +:+ "[" +:+ PyStr.str_of_nat idx +:+ "/"
              +:+ PyStr.str_of_nat total +:+ "] Processing..."] w)) with (fs w).
    destruct (isdir (fs w) (output_path_of (OUTPUT_FOLDER E) a)) eqn:Hd; [|done].
    injection Hfail as <-. rewrite (open_w_dir _ _ Hd). wsimpl. reflexivity.
Qed.

(** One turn on a file whose processing does not raise: the artifact is
    written and its path is appended to the list. *)
Lemma batch_loop_cons_ok m total idx a todo outs w :
  isdir (fs w) (OUTPUT_FOLDER E) = true ->
  failure_of E m (fs w) a = None ->
  exists r f',
    transcribe m (str (Path a)) = inr r
    /\ open_w (fs w) (output_path_of (OUTPUT_FOLDER E) a) = inr f'
    /\ batch_loop E m total ((idx, a) :: todo) outs w
       = batch_loop E m total todo
           (outs ++ [str (output_path_of (OUTPUT_FOLDER E) a)])
           (saved E m a (OUTPUT_FOLDER E) r f'
              (add_stdout [processing_line idx total] w)).
Proof.
  intros Hout Hok. unfold failure_of in Hok.
  destruct (transcribe m (str (Path a))) as [e'|r] eqn:Hm; [done|].
  destruct (isdir (fs w) (output_path_of (OUTPUT_FOLDER E) a)) eqn:Hd; [done|].
  destruct (open_w_ok (fs w) (output_path_of (OUTPUT_FOLDER E) a)) as [f' Hopen];
    [by rewrite output_path_parent|done|].
  exists r, f'. split; [done|]. split; [done|].
  simpl. unfold mbind at 1, M_bind at 1, bind at 1, print at 1.
  unfold mbind at 1, M_bind at 1, bind at 1, try_except.
  unfold mbind at 1, M_bind at 1, bind at 1.
  rewrite transcribe_file_run, Hm.
  change (fs (add_stdout [nl +:+ "[" +:+ PyStr.str_of_nat idx +:+ "/"
            +:+ PyStr.str_of_nat total +:+ "] Processing..."] w)) with (fs w).
  rewrite Hopen. reflexivity.
Qed.

Lemma failure_of_ext m f f' a :
  (forall q, isdir f q = isdir f' q) ->
  failure_of E m f a = failure_of E m f' a.
Proof. intros H. unfold failure_of. by rewrite H. Qed.

(** The whole loop: it always returns, with the artifacts of the files that
    did not raise, in order. *)
Lemma batch_loop_spec m total f0 todo :
  isdir f0 (OUTPUT_FOLDER E) = true ->
  forall outs w,
    (forall q, isdir (fs w) q = isdir f0 q) ->
    exists w',
      batch_loop E m total todo outs w
      = (inr (outs ++ map (fun a => str (output_path_of (OUTPUT_FOLDER E) a))
                        (List.filter (succeeds E m f0) (map snd todo))), w')
      /\ batch_post E m f0 (map snd todo) w w'.
Proof.
  intros Hout. induction todo as [|[idx a] todo IH]; intros outs w Hdirs.
  - exists w. simpl. rewrite app_nil_r. split; [done|].
    unfold batch_post. simpl. rewrite app_nil_r, Nat.add_0_r.
    repeat split; try done. exists []. by rewrite app_nil_r.
  - simpl map. simpl List.filter. unfold succeeds at 1.
    pose proof (failure_of_ext m _ _ a Hdirs) as Hsame.
    destruct (failure_of E m f0 a) as [e|] eqn:Hfail.
    + rewrite (batch_loop_cons_fail _ _ _ _ _ _ _ e) by done.
      edestruct (IH outs) as (w' & -> & Hpost); [|eexists; split; [reflexivity|]].
      { intros q. simpl. apply Hdirs. }
      destruct Hpost as (Hd & Hc & Hk & Hf & Ha & Hq & (printed & Hp & He)).
      unfold batch_post. simpl in *. repeat split.
      * done.
      * rewrite Hc. by rewrite <- app_assoc.
      * unfold succeeds at 1. by rewrite Hfail.
      * done.
      * intros a' [<-|Hin] Hok; [|by apply Ha].
        unfold succeeds in Hok. by rewrite Hfail in Hok.
      * intros q Hne. apply Hq. intros a' Hin. apply Hne. by right.
      * eexists. rewrite Hp, <- !app_assoc. split; [reflexivity|].
        intros a' e' [<-|Hin] Hf'.
        -- rewrite Hfail in Hf'. injection Hf' as <-.
           rewrite !in_app_iff. right. right. left. by left.
        -- rewrite !in_app_iff. right. right. right. eauto.
    + destruct (batch_loop_cons_ok m total idx a todo outs w) as (r & f' & Hm & Hopen & ->);
        [by rewrite Hdirs|done|].
      destruct (open_w_inv _ _ _ (output_path_not_parent _ _) Hopen)
        as (Hempty & Hdir' & Hother).
      pose proof (saved_read_text E m a _ r f'
                    (add_stdout [processing_line idx total] w) Hempty) as Hnew.
      pose proof (fun q => saved_read_text_ne E m a (OUTPUT_FOLDER E) r f'
                    (add_stdout [processing_line idx total] w) q) as Hold.
      pose proof (saved_is_dir E m a (OUTPUT_FOLDER E) r f'
                    (add_stdout [processing_line idx total] w)) as Hsd.
      pose proof (saved_calls m a (OUTPUT_FOLDER E) r f'
                    (add_stdout [processing_line idx total] w)) as Hsc.
      pose proof (saved_clock_reads m a (OUTPUT_FOLDER E) r f'
                    (add_stdout [processing_line idx total] w)) as Hsk.
      pose proof (saved_stdout m a (OUTPUT_FOLDER E) r f'
                    (add_stdout [processing_line idx total] w)) as Hsp.
      set (w1 := saved E m a (OUTPUT_FOLDER E) r f' _) in *. clearbody w1.
      set (o := output_path_of (OUTPUT_FOLDER E) a) in *.
      simpl in Hnew, Hsc, Hsk, Hsp.
      edestruct (IH (outs ++ [str o])) as (w' & -> & Hpost).
      { intros q. rewrite Hsd, Hdir'. apply Hdirs. }
      eexists. rewrite <- app_assoc. split; [reflexivity|].
      destruct Hpost as (Hd & Hc & Hk & Hf & Ha & Hq & (printed & Hp & He)).
      assert (Hfile1 : isfile (fs w1) o = true)
        by (apply is_file_read_text; eauto).
      unfold batch_post. simpl. repeat split.
      * done.
      * rewrite Hc, Hsc. by rewrite <- app_assoc.
      * unfold succeeds at 1. rewrite Hfail, Hk, Hsk. simpl. lia.
      * intros q Hfile. apply Hf.
        destruct (decide (q = o)) as [->|Hne]; [done|].
        apply is_file_read_text. rewrite Hold, Hother by done.
        by apply is_file_read_text.
      * intros a' [<-|Hin] Hok; [by apply Hf|by apply Ha].
      * intros q Hne.
        assert (Hqo : q <> o).
        { intros ->. apply (Hne a); [by left| |done].
          unfold succeeds. by rewrite Hfail. }
        rewrite Hq; [by rewrite Hold, Hother|].
        intros a' Hin. apply Hne. by right.
      * eexists. rewrite Hp, Hsp. rewrite <- !app_assoc.
        split; [reflexivity|].
        intros a' e' [<-|Hin] Hf'; [by rewrite Hfail in Hf'|].
        rewrite !in_app_iff. right. right. eauto.
Qed.

End Batch.

(** ** [main], branch by branch *)

Section Main.

Context (E : env).

Implicit Types (f : gmap path node) (w : world) (m : Model).

Lemma bind_print {B} (s : string) (k : unit -> M B) w :
  mbind k (print s) w = k tt (add_stdout [s] w).
Proof. reflexivity. Qed.

Lemma add_stdout_twice l1 l2 w :
  add_stdout l2 (add_stdout l1 w) = add_stdout (l1 ++ l2) w.
Proof. apply world_ext; simpl; by rewrite ?app_assoc. Qed.

Lemma set_fs_twice f1 f2 w : set_fs f2 (set_fs f1 w) = set_fs f2 w.
Proof. by apply world_ext. Qed.

Lemma set_fs_add_stdout f l w : set_fs f (add_stdout l w) = add_stdout l (set_fs f w).
Proof. by apply world_ext. Qed.

Lemma log_call_add_stdout c l w :
  log_call c (add_stdout l w) = add_stdout l (log_call c w).
Proof. by apply world_ext. Qed.

Lemma bind_unfold {A B} (c : M A) (k : A -> M B) w :
  mbind k c w = match c w with
                | (inr a, w') => k a w'
                | (inl s, w') => (inl s, w')
                end.
Proof. reflexivity. Qed.

Lemma ensure_folders_exist_run w :
  ensure_folders_exist E w =
  match mkdir_exist_ok (fs w) (INPUT_FOLDER E) with
  | inl e => (inl (Exc e), w)
  | inr f1 =>
      match mkdir_exist_ok f1 (OUTPUT_FOLDER E) with
      | inl e => (inl (Exc e), set_fs f1 w)
      | inr f2 => (inr tt, set_fs f2 w)
      end
  end.
Proof.
  unfold ensure_folders_exist. rewrite bind_unfold. unfold fs_op.
  destruct (mkdir_exist_ok (fs w) (INPUT_FOLDER E)) as [e|f1]; [done|].
  change (fs (set_fs f1 w)) with f1.
  destruct (mkdir_exist_ok f1 (OUTPUT_FOLDER E)) as [e|f2]; [done|].
  by rewrite set_fs_twice.
Qed.

Lemma usage_run source w :
  usage E source w =
  (inr tt,
   add_stdout
     [nl +:+ "[!] No MP3 files found in: " +:+ source;
      nl +:+ rule "-"; "HOW TO USE:"; rule "-";
      nl +:+ "1. Put your MP3 files in the 'input' folder:";
      "   " +:+ str (INPUT_FOLDER E);
      nl +:+ "2. Run: python transcribe.py";
      nl +:+ "3. Find transcriptions in the 'output' folder:";
      "   " +:+ str (OUTPUT_FOLDER E);
      nl +:+ "OR specify a file/folder directly:";
      "   python transcribe.py episode.mp3";
      "   python transcribe.py C:\Podcasts\MyShow"] w).
Proof.
  unfold usage. rewrite !bind_print. unfold print.
  by rewrite !add_stdout_twice.
Qed.

Lemma INPUT_FOLDER_eq : INPUT_FOLDER E = SCRIPT_DIR E ++ ["input"].
Proof. apply joinpath_single. by split. Qed.

Lemma OUTPUT_FOLDER_eq : OUTPUT_FOLDER E = SCRIPT_DIR E ++ ["output"].
Proof. apply joinpath_single. by split. Qed.

Lemma folder_not_parent d n :
  is_anchor n = false -> parent (d ++ [n]) <> d ++ [n].
Proof.
  intros Hn. rewrite parent_snoc by done. intros H. symmetry in H.
  by apply snoc_ne in H.
Qed.

(** Once both folders are made, the output folder is a directory and no
    file has changed. *)
Lemma folders_ready_inv f f2 :
  folders_ready E f = inr f2 ->
  isdir f2 (OUTPUT_FOLDER E) = true
  /\ (forall q, read_text f2 q = read_text f q).
Proof.
  unfold folders_ready.
  destruct (mkdir_exist_ok f (INPUT_FOLDER E)) as [e|f1] eqn:H1; [done|].
  intros H2.
  apply mkdir_exist_ok_inv in H1 as (_ & Hr1 & _);
    [|rewrite INPUT_FOLDER_eq; by apply folder_not_parent].
  apply mkdir_exist_ok_inv in H2 as (Hd & Hr2 & _);
    [|rewrite OUTPUT_FOLDER_eq; by apply folder_not_parent].
  split; [done|]. intros q. by rewrite Hr2, Hr1.
Qed.

(** Folders that exist are left alone. *)
Lemma folders_ready_existing f :
  isdir f (INPUT_FOLDER E) = true -> isdir f (OUTPUT_FOLDER E) = true ->
  folders_ready E f = inr f.
Proof.
  intros Hi Ho. apply is_dir_lookup in Hi as [li Hi].
  apply is_dir_lookup in Ho as [lo Ho].
  unfold folders_ready, mkdir_exist_ok. by rewrite Hi, Ho.
Qed.

(** [failure_of] tells how [transcribe_file] ends in the loop. *)
Lemma failure_of_sound m a w :
  isdir (fs w) (OUTPUT_FOLDER E) = true ->
  fst (transcribe_file E m a (Some (OUTPUT_FOLDER E)) w)
  = match failure_of E m (fs w) a with
    | Some e => inl (Exc e)
    | None => inr (str (output_path_of (OUTPUT_FOLDER E) a))
    end.
Proof.
  intros Hout. rewrite transcribe_file_run. unfold failure_of.
  destruct (transcribe m (str (Path a))) as [e|r]; [done|].
  destruct (isdir (fs w) (output_path_of (OUTPUT_FOLDER E) a)) eqn:Hd.
  - by rewrite (open_w_dir _ _ Hd).
  - destruct (open_w_ok (fs w) (output_path_of (OUTPUT_FOLDER E) a)) as [f' ->];
      [by rewrite output_path_parent|done|done].
Qed.

(** The ways [main] ends: a [mkdir] raises, the target cannot be examined,
    nothing is found, the model cannot be loaded, or the batch runs (the last
    case of [batch_loop] never happens, see [batch_loop_spec]). *)
Lemma main_run argv w :
  main E argv w =
  match mkdir_exist_ok (fs w) (INPUT_FOLDER E) with
  | inl e => (inl (Exc e), add_stdout (banner_lines) w)
  | inr f1 =>
      match mkdir_exist_ok f1 (OUTPUT_FOLDER E) with
      | inl e => (inl (Exc e), add_stdout (banner_lines) (set_fs f1 w))
      | inr f2 =>
          match get_mp3_files E f2 (fst (parse_argv argv)) with
          | inl e => (inl (Exc e), add_stdout (banner_lines) (set_fs f2 w))
          | inr [] => (inl (SystemExit 1),
                       add_stdout (banner_lines ++ usage_lines E argv) (set_fs f2 w))
          | inr files =>
              let w1 := add_stdout (banner_lines ++ found_lines E argv files)
                          (set_fs f2 w) in
              match whisper_load_model E MODEL_SIZE with
              | inl e => (inl (Exc e), log_call (LoadModel MODEL_SIZE) w1)
              | inr m =>
                  match batch_loop E m (length files) (enumerate files 1) []
                          (add_stdout ["[OK] Model loaded successfully!"]
                             (log_call (LoadModel MODEL_SIZE) w1)) with
                  | (inr outs, w2) =>
                      (inr tt, add_stdout (summary_lines E outs files) w2)
                  | (inl s, w2) => (inl s, w2)
                  end
              end
          end
      end
  end.
Proof.
  unfold main. rewrite !bind_print, !add_stdout_twice.
  change ([nl +:+ rule "="] ++ _) with banner_lines.
  rewrite bind_unfold, ensure_folders_exist_run.
  change (fs (add_stdout banner_lines w)) with (fs w).
  destruct (mkdir_exist_ok (fs w) (INPUT_FOLDER E)) as [e|f1]; [done|].
  destruct (mkdir_exist_ok f1 (OUTPUT_FOLDER E)) as [e|f2].
  { by rewrite set_fs_add_stdout. }
  rewrite set_fs_add_stdout.
  destruct (parse_argv argv) as [input_path custom_path] eqn:Hargv.
  rewrite bind_unfold. unfold fs_read at 1.
  change (fs (add_stdout banner_lines (set_fs f2 w))) with f2.
  change (fst (input_path, custom_path)) with input_path.
  destruct (get_mp3_files E f2 input_path) as [e|[|file files]] eqn:Hfiles;
    [done| |].
  - rewrite bind_unfold, bind_unfold, usage_run. unfold sys_exit.
    rewrite !add_stdout_twice. f_equal. f_equal. f_equal.
    unfold usage_lines. rewrite Hargv. reflexivity.
  - rewrite bind_unfold. unfold ret at 1.
    rewrite !bind_print.
    rewrite bind_unfold, for_each_print_pair.
    rewrite !bind_print, !add_stdout_twice.
    rewrite bind_unfold. unfold load_model.
    match goal with
    | |- context [add_stdout ?l (set_fs f2 w)] =>
        replace l with (banner_lines ++ found_lines E argv (file :: files))
    end.
    2:{ unfold found_lines. rewrite Hargv, <- ?app_assoc. simpl.
        by destruct input_path as [s|], custom_path. }
    destruct (whisper_load_model E MODEL_SIZE) as [e|m]; [done|].
    rewrite bind_print, bind_unfold.
    destruct (batch_loop E m _ _ _ _) as [[s|outs] w2]; [done|].
    rewrite !bind_print, for_each_print, !add_stdout_twice.
    reflexivity.
Qed.

(** C5, as the script has it. When the model raises, [transcribe_file] ends
    with that very exception, unwrapped: the same class, message and cause.
    Nothing is written, and the call of the model is the last thing that
    happened. In the loop of [main] the exception is caught, its message is
    printed in the error line of the file, and the loop goes on with the
    same list of artifacts. *)
Theorem transcribe_file_propagates m audio output_dir w e :
  transcribe m (str (Path audio)) = inl e ->
  (exists w',
     transcribe_file E m audio output_dir w = (inl (Exc e), w')
     /\ fs w' = fs w
     /\ clock_reads w' = clock_reads w
     /\ calls w' = calls w ++ [Transcribe m (str (Path audio))])
  /\ (forall total idx todo outs,
        batch_loop E m total ((idx, audio) :: todo) outs w
        = batch_loop E m total todo outs
            (add_stdout [error_line audio e]
               (announced m audio (add_stdout [processing_line idx total] w)))).
Proof.
  intros Hm. split.
  - assert (Hrun : transcribe_file E m audio output_dir w
                   = transcribe_file E m audio (Some (dir_of E output_dir)) w)
      by (by destruct output_dir).
    rewrite Hrun, transcribe_file_run, Hm. by eexists.
  - intros total idx todo outs. apply batch_loop_cons_fail.
    unfold failure_of. by rewrite Hm.
Qed.

(** The world in which the batch loop starts. *)
Lemma main_batch argv w f2 files m :
  folders_ready E (fs w) = inr f2 ->
  get_mp3_files E f2 (fst (parse_argv argv)) = inr files ->
  files <> [] ->
  whisper_load_model E MODEL_SIZE = inr m ->
  let outs := map (fun a => str (output_path_of (OUTPUT_FOLDER E) a))
                (List.filter (succeeds E m f2) files) in
  exists w1 w2,
    fs w1 = f2 /\ clock_reads w1 = clock_reads w
    /\ calls w1 = calls w ++ [LoadModel MODEL_SIZE]
    /\ batch_loop E m (length files) (enumerate files 1) [] w1 = (inr outs, w2)
    /\ batch_post E m f2 files w1 w2
    /\ main E argv w = (inr tt, add_stdout (summary_lines E outs files) w2).
Proof.
  intros Hready Hfound Hne Hload outs.
  pose proof (folders_ready_inv _ _ Hready) as [Hout _].
  rewrite main_run. unfold folders_ready in Hready.
  destruct (mkdir_exist_ok (fs w) (INPUT_FOLDER E)) as [e|f1]; [done|].
  rewrite Hready, Hfound. cbv zeta.
  destruct files as [|file rest] eqn:Hfiles; [done|]. rewrite Hload.
  match goal with
  | |- context [batch_loop E m ?t ?todo [] ?w1] =>
      destruct (batch_loop_spec E m t f2 todo Hout [] w1) as (w2 & Hloop & Hpost);
      [done|exists w1, w2]
  end.
  rewrite map_snd_enumerate in Hloop, Hpost.
  rewrite Hloop. do 4 (split; [done|]). split; [exact Hpost|done].
Qed.


(** C4, as the script has it. The exit status of every run, by cases. When a
    [mkdir] raises, the exception escapes [main]: status 1. So does the
    error of [os.stat] when the target cannot be examined: status 1, and
    only the banner was printed. When both folders are ready and no file is
    found, [main] ends in [sys.exit(1)]: the banner and the help were
    printed, whisper was not called, the clock was not read and every file
    has the text it had. When files are found, the status is 1 if loading
    the model raises and 0 otherwise. *)
Theorem main_exit_status argv w :
  match folders_ready E (fs w) with
  | inl e => fst (main E argv w) = inl (Exc e) /\ fst (run E argv w) = 1
  | inr f2 =>
      match get_mp3_files E f2 (fst (parse_argv argv)) with
      | inl e =>
          fst (main E argv w) = inl (Exc e) /\ fst (run E argv w) = 1
          /\ stat_error E (target_of E (fst (parse_argv argv))) = Some e
          /\ stdout (snd (main E argv w)) = stdout w ++ banner_lines
          /\ calls (snd (main E argv w)) = calls w
      | inr [] =>
          exists w',
            main E argv w = (inl (SystemExit 1), w')
            /\ fst (run E argv w) = 1
            /\ stdout w' = stdout w ++ banner_lines ++ usage_lines E argv
            /\ calls w' = calls w
            /\ clock_reads w' = clock_reads w
            /\ (forall q, read_text (fs w') q = read_text (fs w) q)
      | inr (_ :: _) =>
          match whisper_load_model E MODEL_SIZE with
          | inl e => fst (main E argv w) = inl (Exc e) /\ fst (run E argv w) = 1
          | inr _ => fst (run E argv w) = 0
          end
      end
  end.
Proof.
  destruct (folders_ready E (fs w)) as [e|f2] eqn:Hready.
  - unfold run. rewrite main_run. unfold folders_ready in Hready.
    destruct (mkdir_exist_ok (fs w) (INPUT_FOLDER E)) as [e1|f1].
    + by injection Hready as ->.
    + by rewrite Hready.
  - destruct (get_mp3_files E f2 (fst (parse_argv argv)))
      as [e|[|file rest]] eqn:Hfiles.
    + unfold run. rewrite main_run. unfold folders_ready in Hready.
      destruct (mkdir_exist_ok (fs w) (INPUT_FOLDER E)) as [e1|f1]; [done|].
      rewrite Hready, Hfiles. apply get_mp3_files_inl in Hfiles.
      by repeat split.
    + pose proof (folders_ready_inv _ _ Hready) as [_ Hsame].
      unfold run. rewrite main_run. unfold folders_ready in Hready.
      destruct (mkdir_exist_ok (fs w) (INPUT_FOLDER E)) as [e1|f1]; [done|].
      rewrite Hready, Hfiles. eexists.
      split; [reflexivity|]. by repeat split.
    + destruct (whisper_load_model E MODEL_SIZE) as [e|m] eqn:Hload.
      * unfold run. rewrite main_run. unfold folders_ready in Hready.
        destruct (mkdir_exist_ok (fs w) (INPUT_FOLDER E)) as [e1|f1]; [done|].
        rewrite Hready, Hfiles. cbv zeta. rewrite Hload. done.
      * destruct (main_batch argv w f2 (file :: rest) m Hready Hfiles)
          as (w1 & w2 & _ & _ & _ & _ & _ & Hmain); [done|done|].
        unfold run. by rewrite Hmain.
Qed.

(** C6. In a run that starts with no call made and in which some file
    reaches the model, whisper was called as follows: [load_model] once,
    first, and then [transcribe] once for each file found, in order, every
    time on the handle that [load_model] returned. *)
Theorem model_loaded_once argv w m' a :
  calls w = [] ->
  In (Transcribe m' a) (calls (snd (main E argv w))) ->
  exists m f2 files,
    whisper_load_model E MODEL_SIZE = inr m
    /\ folders_ready E (fs w) = inr f2
    /\ get_mp3_files E f2 (fst (parse_argv argv)) = inr files
    /\ files <> []
    /\ calls (snd (main E argv w))
       = LoadModel MODEL_SIZE :: map (fun a => Transcribe m (str (Path a))) files
    /\ length (List.filter is_load (calls (snd (main E argv w)))) = 1
    /\ m' = m.
Proof.
  intros Hfresh Hin.
  destruct (folders_ready E (fs w)) as [e|f2] eqn:Hready.
  { exfalso. rewrite main_run in Hin. unfold folders_ready in Hready.
    destruct (mkdir_exist_ok (fs w) (INPUT_FOLDER E)) as [e1|f1].
    - simpl in Hin. by rewrite Hfresh in Hin.
    - rewrite Hready in Hin. simpl in Hin. by rewrite Hfresh in Hin. }
  destruct (get_mp3_files E f2 (fst (parse_argv argv)))
    as [e|[|file rest]] eqn:Hfiles.
  { exfalso. rewrite main_run in Hin. unfold folders_ready in Hready.
    destruct (mkdir_exist_ok (fs w) (INPUT_FOLDER E)) as [e1|f1]; [done|].
    rewrite Hready, Hfiles in Hin. simpl in Hin. by rewrite Hfresh in Hin. }
  { exfalso. rewrite main_run in Hin. unfold folders_ready in Hready.
    destruct (mkdir_exist_ok (fs w) (INPUT_FOLDER E)) as [e1|f1]; [done|].
    rewrite Hready, Hfiles in Hin.
    simpl in Hin. by rewrite Hfresh in Hin. }
  destruct (whisper_load_model E MODEL_SIZE) as [e|m] eqn:Hload.
  { exfalso. rewrite main_run in Hin. unfold folders_ready in Hready.
    destruct (mkdir_exist_ok (fs w) (INPUT_FOLDER E)) as [e1|f1]; [done|].
    rewrite Hready, Hfiles in Hin. cbv zeta in Hin. rewrite Hload in Hin.
    simpl in Hin. rewrite Hfresh in Hin. by destruct Hin as [|[]]. }
  destruct (main_batch argv w f2 (file :: rest) m Hready Hfiles)
    as (w1 & w2 & _ & _ & Hc1 & _ & (_ & Hc & _) & Hmain);
    [done|done|].
  rewrite Hmain in *. simpl in Hin |- *.
  rewrite Hc1, Hfresh in Hc. simpl in Hc.
  exists m, f2, (file :: rest). rewrite Hc in *. repeat split; try done.
  - simpl. f_equal. clear. induction rest as [|x l IH]; [done|exact IH].
  - destruct Hin as [|Hin]; [done|].
    change (In (Transcribe m' a)
              (map (fun a => Transcribe m (str (Path a))) (file :: rest))) in Hin.
    apply in_map_iff in Hin as (x & [= -> _] & _). done.
Qed.

Lemma output_path_of_inj d a b :
  output_path_of d a = output_path_of d b -> stem (Path a) = stem (Path b).
Proof.
  rewrite !output_path_of_eq. intros H. apply app_inv_head in H.
  injection H as H. by apply str_app_inj_r in H.
Qed.

(** C10. A batch in which [a] comes before [b], both with the same stem and
    neither raising, and in which no later file of that stem is written:
    [main] returns with status 0; the two files have one destination; the
    list of artifacts that the summary counts and prints has an entry for
    [a] and an entry for [b]; and the file at the destination holds the
    artifact of [b], with the transcript of [b] and the time of its
    writing. *)
Theorem same_stem_overwrites argv w f2 m pre a mid b post :
  folders_ready E (fs w) = inr f2 ->
  get_mp3_files E f2 (fst (parse_argv argv)) = inr (pre ++ a :: mid ++ b :: post) ->
  whisper_load_model E MODEL_SIZE = inr m ->
  stem (Path a) = stem (Path b) ->
  succeeds E m f2 a = true ->
  succeeds E m f2 b = true ->
  (forall c, In c post -> succeeds E m f2 c = true ->
             stem (Path c) <> stem (Path b)) ->
  let ok := succeeds E m f2 in
  let out := output_path_of (OUTPUT_FOLDER E) in
  let files := pre ++ a :: mid ++ b :: post in
  let output_files := map (fun c => str (out c)) (List.filter ok files) in
  exists w' r before,
    run E argv w = (0, w')
    /\ transcribe m (str (Path b)) = inr r
    /\ out a = out b
    /\ stdout w' = before ++ summary_lines E output_files files
    /\ output_files
       = map (fun c => str (out c)) (List.filter ok pre) ++ str (out a)
         :: map (fun c => str (out c)) (List.filter ok mid) ++ str (out b)
         :: map (fun c => str (out c)) (List.filter ok post)
    /\ read_text (fs w') (out b)
       = Some (artifact_text (name (Path b))
                 (strftime (clock E (clock_reads w
                    + length (List.filter ok (pre ++ a :: mid)))))
                 (text r)).
Proof.
  intros Hready Hfiles Hload Hstem Hoka Hokb Hpost ok out files output_files.
  pose proof (folders_ready_inv _ _ Hready) as [Hout _].
  destruct (main_batch argv w f2 files m Hready Hfiles) as
    (w1 & w2 & Hfs1 & Hclk1 & _ & Hloop & _ & Hmain);
    [by unfold files; destruct pre|done|].
  fold ok out output_files in Hloop, Hmain.
  assert (Hsame : out a = out b)
    by (unfold out, output_path_of; by rewrite Hstem).
  assert (Hsplit : files = (pre ++ a :: mid) ++ b :: post)
    by (unfold files; by rewrite <- app_assoc).
  (* the files before [b] *)
  rewrite Hsplit, enumerate_app, batch_loop_app in Hloop.
  destruct (batch_loop_spec E m (length ((pre ++ a :: mid) ++ b :: post)) f2
              (enumerate (pre ++ a :: mid) 1) Hout [] w1)
    as (wA & HloopA & HdA & _ & HkA & _); [intros q; by rewrite Hfs1|].
  rewrite map_snd_enumerate in HloopA, HkA.
  rewrite HloopA in Hloop. simpl enumerate in Hloop.
  (* [b] itself *)
  destruct (batch_loop_cons_ok E m (length ((pre ++ a :: mid) ++ b :: post))
              (S (length (pre ++ a :: mid))) b
              (enumerate post (S (S (length (pre ++ a :: mid)))))
              ([] ++ map (fun c => str (output_path_of (OUTPUT_FOLDER E) c))
                       (List.filter (succeeds E m f2) (pre ++ a :: mid))) wA)
    as (r & f' & Hm & Hopen & Hstep).
  { by rewrite HdA. }
  { rewrite (failure_of_ext E m _ f2 b HdA). unfold succeeds in Hokb.
    by destruct (failure_of E m f2 b). }
  rewrite Hstep in Hloop.
  destruct (open_w_inv _ _ _ (output_path_not_parent _ _) Hopen) as (Hempty & HdO & _).
  pose proof (saved_read_text E m b _ r f'
    (add_stdout [processing_line (S (length (pre ++ a :: mid)))
                   (length ((pre ++ a :: mid) ++ b :: post))] wA) Hempty) as Hnew.
  pose proof (saved_is_dir E m b (OUTPUT_FOLDER E) r f'
    (add_stdout [processing_line (S (length (pre ++ a :: mid)))
                   (length ((pre ++ a :: mid) ++ b :: post))] wA)) as HdS.
  set (wS := saved E m b (OUTPUT_FOLDER E) r f' _) in *. clearbody wS.
  (* the files after [b] *)
  match type of Hloop with
  | batch_loop E m ?t ?todo ?outs wS = _ =>
      destruct (batch_loop_spec E m t f2 todo Hout outs wS)
        as (wB & HloopB & _ & _ & _ & _ & _ & HqB & _)
  end.
  { intros q. by rewrite HdS, HdO, HdA. }
  rewrite map_snd_enumerate in HqB.
  rewrite HloopB in Hloop. injection Hloop as _ <-.
  exists (add_stdout (summary_lines E output_files files) wB), r, (stdout wB).
  unfold run. rewrite Hmain. split; [done|]. split; [done|]. split; [done|].
  split; [done|]. split.
  - unfold output_files, files.
    rewrite List.filter_app. simpl List.filter. fold ok.
    unfold ok at 2. rewrite Hoka.
    rewrite List.filter_app. simpl List.filter. fold ok.
    unfold ok at 3. rewrite Hokb.
    rewrite map_app. simpl map. by rewrite map_app.
  - unfold out. simpl fs. rewrite HqB.
    + rewrite Hnew. simpl clock_reads. by rewrite HkA, Hclk1.
    + intros c Hin Hok Heq. apply (Hpost c Hin Hok).
      by apply (output_path_of_inj (OUTPUT_FOLDER E)).
Qed.

End Main.

(** ** The properties on the small world *)

(** The batch of the specification: three files, the second of which the
    model rejects. Two artifacts, "2 of 3", exit status 0. *)
Lemma batch_of_three_example :
  let E := ex_env true (inr (picky_model "pod/b.mp3")) in
  let '(status, w') := run E ["transcribe.py"; "pod"]
                         (ex_world ["c.mp3"; "a.mp3"; "b.mp3"]) in
  status = 0
  /\ scandir (fs w') ["app"; "output"] ≡ₚ ["a.txt"; "c.txt"]
  /\ In (summary_line 2 3) (stdout w')
  /\ In (error_line "pod/b.mp3" corrupt_audio) (stdout w').
Proof.
  vm_compute. split; [reflexivity|]. split; [reflexivity|]. split; auto 40.
Qed.



(** C5, as the script has it, on a file the model rejects. *)
Lemma transcribe_file_propagates_witness :
  let E := ex_env true (inr (picky_model "pod/b.mp3")) in
  let w := ex_world ["b.mp3"] in
  exists w',
    transcribe_file E (picky_model "pod/b.mp3") "pod/b.mp3" None w
    = (inl (Exc corrupt_audio), w')
    /\ fs w' = fs w.
Proof.
  intros E w.
  destruct (transcribe_file_propagates E (picky_model "pod/b.mp3") "pod/b.mp3"
              None w corrupt_audio) as ((w' & Hrun & Hfs & _) & _).
  - vm_compute; reflexivity.
  - exists w'. split; [exact Hrun|exact Hfs].
Defined.

(** C5, where the script departs from it: the exception that leaves
    [transcribe_file] is the model's own [RuntimeError]; it is no
    [TranscriptionError] and it has no cause attached. *)
Lemma transcription_error_not_raised :
  let E := ex_env true (inr (picky_model "pod/b.mp3")) in
  transcribe (picky_model "pod/b.mp3") (str (Path "pod/b.mp3")) = inl corrupt_audio
  /\ fst (transcribe_file E (picky_model "pod/b.mp3") "pod/b.mp3" None
            (ex_world ["b.mp3"]))
     = inl (Exc corrupt_audio)
  /\ exc_class corrupt_audio = "RuntimeError"
  /\ exc_class corrupt_audio <> "TranscriptionError"
  /\ exc_cause corrupt_audio <> Some corrupt_audio.
Proof. vm_compute. repeat split; discriminate. Qed.

(** C7 on two takes of [ep1.mp3]. *)
Lemma transcribe_file_overwrites_witness :
  let E := ex_env true (inr good_model) in
  let w := ex_world ["ep1.mp3"] in
  let first := transcribe_file E good_model "pod/ep1.mp3" (Some ["app"; "output"]) w in
  let other : Model := {| transcribe := fun _ => inr {| text := "second take" |} |} in
  fst first = inr "app/output/ep1.txt"
  /\ exists w2,
       transcribe_file E other "pod/ep1.mp3" (Some ["app"; "output"]) (snd first)
       = (inr "app/output/ep1.txt", w2)
       /\ read_text (fs w2) ["app"; "output"; "ep1.txt"]
          = Some (artifact_text "ep1.mp3" "2024-03-07 09:05:01" "second take").
Proof.
  intros E w first other.
  split; [vm_compute; reflexivity|].
  destruct (transcribe_file_overwrites E good_model other "pod/ep1.mp3"
              "pod/ep1.mp3" ["app"; "output"] w "app/output/ep1.txt" (snd first)
              {| text := "second take" |})
    as (w2 & Hrun & _ & Hread & _).
  - reflexivity.
  - vm_compute; reflexivity.
  - reflexivity.
  - exists w2. split; [exact Hrun|exact Hread].
Defined.

(** C8 on a file given with a spelling that [pathlib] normalises. *)
Lemma get_mp3_files_single_file_witness :
  let E := ex_env true (inr good_model) in
  get_mp3_files E (ex_fs ["x.Mp3"]) (Some "./pod//x.Mp3") = inr ["pod/x.Mp3"].
Proof.
  intros E.
  apply (get_mp3_files_single_file E (ex_fs ["x.Mp3"]) "./pod//x.Mp3");
    vm_compute; reflexivity.
Defined.

(** C9, as the script has it, on a path that does not exist. *)
Lemma get_mp3_files_missing_witness :
  let E := ex_env true (inr good_model) in
  get_mp3_files E (ex_fs ["a.mp3"]) (Some "nowhere") = inr [].
Proof.
  intros E.
  rewrite (get_mp3_files_missing E (ex_fs ["a.mp3"]) (Some "nowhere"));
    vm_compute; reflexivity.
Defined.

(** C9, where the script departs from it: a target whose name has 300
    characters is neither a file nor a directory, and [get_mp3_files] does
    not return the empty list for it: the [OSError] of [os.stat] (errno 36,
    file name too long) leaves it, and [main] ends with that error. *)
Lemma get_mp3_files_raises_for_long_name :
  let E := ex_env true (inr good_model) in
  let f := ex_fs ["a.mp3"] in
  isfile f (Path long_name) = false
  /\ isdir f (Path long_name) = false
  /\ get_mp3_files E f (Some long_name) = inl (ENAMETOOLONG [long_name])
  /\ get_mp3_files E f (Some long_name) <> inr []
  /\ exc_class (ENAMETOOLONG [long_name]) = "OSError"
  /\ fst (main E ["transcribe.py"; long_name] (ex_world ["a.mp3"]))
     = inl (Exc (ENAMETOOLONG [long_name])).
Proof. vm_compute. repeat split; discriminate. Qed.

(** C4, where the script departs from it: two runs that end with a status
    other than 0 although the help was not printed. In the first a file was
    found and [whisper.load_model] raises; in the second [app/input] is a
    regular file, so that [mkdir] raises before anything is looked for. *)
Lemma nonzero_exit_without_empty_list :
  let E := ex_env true (inl download_failed) in
  let argv := ["transcribe.py"; "pod"] in
  (get_mp3_files E (ex_fs ["a.mp3"]) (fst (parse_argv argv)) = inr ["pod/a.mp3"]
   /\ fst (main E argv (ex_world ["a.mp3"])) = inl (Exc download_failed)
   /\ fst (run E argv (ex_world ["a.mp3"])) = 1
   /\ ~ In "HOW TO USE:" (stdout (snd (run E argv (ex_world ["a.mp3"])))))
  /\ (get_mp3_files E blocked_fs (fst (parse_argv argv)) = inr ["pod/a.mp3"]
      /\ fst (main E argv blocked_world)
         = inl (Exc (FileExistsError ["app"; "input"]))
      /\ fst (run E argv blocked_world) = 1
      /\ ~ In "HOW TO USE:" (stdout (snd (run E argv blocked_world)))).
Proof.
  vm_compute. repeat split; try reflexivity;
    intros H; repeat (destruct H as [H|H]; [discriminate H|]); exact H.
Qed.

(** C6 on a batch of two. *)
Lemma model_loaded_once_witness :
  let E := ex_env true (inr good_model) in
  let w := ex_world ["b.mp3"; "a.mp3"] in
  let w' := snd (main E ["transcribe.py"; "pod"] w) in
  calls w = []
  /\ In (Transcribe good_model "pod/a.mp3") (calls w')
  /\ length (List.filter is_load (calls w')) = 1
  /\ exists files,
       calls w' = LoadModel "base"
                  :: map (fun a => Transcribe good_model (str (Path a))) files.
Proof.
  intros E w w'.
  assert (H1 : calls w = []) by reflexivity.
  assert (H2 : In (Transcribe good_model "pod/a.mp3") (calls w'))
    by (vm_compute; right; left; reflexivity).
  destruct (model_loaded_once E ["transcribe.py"; "pod"] w good_model
              "pod/a.mp3" H1 H2)
    as (m & f2 & files & _ & _ & _ & _ & Hcalls & Hcount & <-).
  split; [exact H1|]. split; [exact H2|]. split; [exact Hcount|].
  exists files. exact Hcalls.
Defined.

(** C10 on a POSIX folder that holds [a.mp3] and [a.MP3]. *)
Lemma same_stem_overwrites_witness :
  let E := ex_env true (inr good_model) in
  let w := ex_world ["a.MP3"; "a.mp3"] in
  get_mp3_files E (fs w) (Some "pod") = inr ["pod/a.mp3"; "pod/a.MP3"]
  /\ exists w',
       run E ["transcribe.py"; "pod"] w = (0, w')
       /\ In (summary_line 2 2) (stdout w')
       /\ scandir (fs w') ["app"; "output"] = ["a.txt"]
       /\ read_text (fs w') ["app"; "output"; "a.txt"]
          = Some (artifact_text "a.MP3" "2024-03-07 09:05:01"
                    "  hello from pod/a.MP3 ").
Proof.
  intros E w.
  assert (Hfiles : get_mp3_files E (fs w) (Some "pod")
                   = inr ["pod/a.mp3"; "pod/a.MP3"])
    by (vm_compute; reflexivity).
  split; [exact Hfiles|].
  destruct (same_stem_overwrites E ["transcribe.py"; "pod"] w (fs w) good_model
              [] "pod/a.mp3" [] "pod/a.MP3" [])
    as (w' & r & before & Hrun & Hm & _ & Hout & _ & Hread).
  - apply folders_ready_existing; vm_compute; reflexivity.
  - exact Hfiles.
  - reflexivity.
  - vm_compute; reflexivity.
  - vm_compute; reflexivity.
  - vm_compute; reflexivity.
  - intros c [].
  - exists w'. split; [exact Hrun|].
    injection Hm as <-.
    assert (Hw' : w' = snd (run E ["transcribe.py"; "pod"] w)) by (by rewrite Hrun).
    split; [|split].
    + rewrite Hout. apply in_app_iff. right.
      vm_compute. right. right. right. left. reflexivity.
    + rewrite Hw'. vm_compute. reflexivity.
    + exact Hread.
Defined.

(** * More on each part of the script *)

(** ** How the artifact is named *)

Section Naming.

Import PyStr.

Lemma rfind_bounds c s : (-1 <= rfind c s < Z.of_nat (String.length s))%Z.
Proof.
  induction s as [|a s IH]; simpl String.length; simpl rfind; [lia|].
  destruct (Z.leb_spec 0 (rfind c s)); [lia|].
  destruct (Ascii.eqb a c); lia.
Qed.

Lemma rfind_absent c s : contains c s = false -> rfind c s = (-1)%Z.
Proof.
  induction s as [|a s IH]; simpl; [done|].
  intros H. apply orb_false_iff in H as [Ha Hs]. by rewrite (IH Hs), Ha.
Qed.

(** The last occurrence in a concatenation is the last one in the second
    part when there is one, and the last one in the first part otherwise. *)
Lemma rfind_app c a b :
  rfind c (a +:+ b)
  = if (0 <=? rfind c b)%Z then (Z.of_nat (String.length a) + rfind c b)%Z
    else rfind c a.
Proof.
  induction a as [|x a IH].
  - rewrite app_empty. simpl.
    destruct (Z.leb_spec 0 (rfind c b)); [lia|].
    pose proof (rfind_bounds c b). lia.
  - rewrite app_String. simpl rfind. rewrite IH.
    destruct (Z.leb_spec 0 (rfind c b)) as [H|H]; [|reflexivity].
    destruct (Z.leb_spec 0 (Z.of_nat (String.length a) + rfind c b)); [|lia].
    simpl String.length. lia.
Qed.

Lemma substring_app_l a b : String.substring 0 (String.length a) (a +:+ b) = a.
Proof.
  induction a as [|x a IH]; [by destruct b|].
  rewrite app_String. simpl. by rewrite IH.
Qed.

Lemma substring_app_r a b k :
  String.substring (String.length a) k (a +:+ b) = String.substring 0 k b.
Proof. induction a as [|x a IH]; [done|]. rewrite app_String. exact IH. Qed.

(** [name.stem] and [name.suffix] of a name with an extension: the last dot
    splits it, whatever dots come before. *)
Lemma stem_suffix_of_extension st e :
  st <> EmptyString -> e <> EmptyString -> contains dot e = false ->
  stem_of_name (st +:+ String dot e) = st
  /\ suffix_of_name (st +:+ String dot e) = String dot e.
Proof.
  intros Hst He Hdot.
  assert (Hr : rfind dot (st +:+ String dot e) = Z.of_nat (String.length st)).
  { rewrite rfind_app. simpl rfind. rewrite (rfind_absent _ _ Hdot).
    simpl. lia. }
  assert (Hlen : (0 < String.length st /\ 0 < String.length e)%nat)
    by (destruct st, e; simpl; try done; lia).
  unfold stem_of_name, suffix_of_name. rewrite Hr, str_length_app.
  simpl String.length.
  destruct (Z.ltb_spec 0 (Z.of_nat (String.length st))); [|lia].
  destruct (Z.ltb_spec (Z.of_nat (String.length st))
              (Z.of_nat (String.length st + S (String.length e)) - 1)); [|lia].
  simpl andb. cbv iota.
  rewrite Nat2Z.id. unfold slice_to, slice_from. split.
  - apply substring_app_l.
  - rewrite str_length_app, substring_app_r. simpl String.length.
    replace (String.length st + S (String.length e) - String.length st)
      with (String.length (String dot e)) by (simpl; lia).
    apply substring_all.
Qed.

(** A name whose only dot, if any, comes first has no suffix. *)
Lemma stem_of_dotless n :
  contains dot (slice_from 1 n) = false -> stem_of_name n = n.
Proof.
  intros H. unfold stem_of_name.
  destruct n as [|c r]; [done|].
  rewrite slice_from_S, slice_from_0 in H.
  simpl rfind. rewrite (rfind_absent _ _ H). simpl.
  by destruct (Ascii.eqb c dot).
Qed.

(** A path in normal form and one more part make a path in normal form:
    [str] and [Path] give it back. *)
Lemma Path_str_child p n :
  Path (str p) = p -> part_ok n -> Path (str (p ++ [n])) = p ++ [n].
Proof.
  intros Hp Hn. rewrite <- Hp.
  destruct (Path_parts_ok (str p)) as (root & comps & -> & Hroot & Hc).
  rewrite <- app_assoc.
  assert (Hc' : Forall part_ok (comps ++ [n]))
    by (apply Forall_app; split; [done|by constructor]).
  assert (Hne : comps ++ [n] <> []) by (by destruct comps).
  set (cs := comps ++ [n]) in *. clearbody cs.
  destruct (tail_parts_Path root cs Hroot Hc') as [Ht Ha].
  destruct (join_head _ Hne Hc') as (a & r & Hj & Hsl).
  assert (Hs := startswith_slash_head a r Hsl). rewrite <- Hj in Hs.
  assert (HP := Path_join cs Hne Hc').
  unfold str. rewrite Ht, Ha.
  destruct Hroot as [->|[->| ->]].
  - simpl. destruct cs; [done|]. exact HP.
  - simpl. unfold Path.
    change ("/" +:+ join "/" cs) with (String slash (join "/" cs)).
    rewrite (splitroot_one _ Hs). simpl. f_equal. by apply split_join_parts.
  - simpl. unfold Path.
    change ("//" +:+ join "/" cs)
      with (String slash (String slash (join "/" cs))).
    rewrite (splitroot_two _ Hs). simpl. f_equal. by apply split_join_parts.
Qed.

Lemma part_ok_extension st e :
  st <> EmptyString ->
  contains slash st = false -> contains slash e = false ->
  part_ok (st +:+ String dot e).
Proof.
  intros Hne Hst He. split.
  - rewrite contains_app, Hst. simpl. by rewrite He.
  - unfold keep_part.
    destruct (String.eqb_spec (st +:+ String dot e) "") as [H|_].
    { apply (f_equal String.length) in H. rewrite str_length_app in H.
      simpl in H. lia. }
    destruct (String.eqb_spec (st +:+ String dot e) ".") as [H|_]; [|done].
    destruct st as [|c st]; [done|].
    rewrite app_String in H. injection H as _ H.
    apply (f_equal String.length) in H. rewrite str_length_app in H.
    simpl in H. lia.
Qed.

(** X1. The artifact of a directory entry [st.e] found under the directory [p]:
    the string [get_mp3_files] returns for it parses back to the entry, and
    the artifact is [st.txt] in the output directory, whatever dots [st]
    holds. *)
Theorem artifact_of_entry p st e d :
  Path (str p) = p ->
  st <> EmptyString -> e <> EmptyString ->
  contains slash st = false -> contains slash e = false ->
  contains dot e = false ->
  let entry := st +:+ String dot e in
  let audio := str (p ++ [entry]) in
  Path audio = p ++ [entry]
  /\ name (Path audio) = entry
  /\ output_path_of d audio = d ++ [st +:+ ".txt"].
Proof.
  intros Hp Hst He Hs1 Hs2 Hdot entry audio.
  assert (Hok : part_ok entry) by (by apply part_ok_extension).
  assert (HP : Path audio = p ++ [entry]) by (by apply Path_str_child).
  assert (Hn : name (Path audio) = entry)
    by (rewrite HP; by apply name_snoc, part_ok_not_anchor).
  split; [done|]. split; [done|].
  rewrite output_path_of_eq. unfold stem. rewrite Hn. unfold entry.
  by rewrite (proj1 (stem_suffix_of_extension st e Hst He Hdot)).
Qed.

(** X2. The artifact of an entry without a suffix (no dot, or one dot in front,
    as the hidden file [.mp3]): the whole name, followed by [.txt]. *)
Theorem artifact_of_entry_without_suffix p n d :
  Path (str p) = p -> part_ok n ->
  contains dot (slice_from 1 n) = false ->
  output_path_of d (str (p ++ [n])) = d ++ [n +:+ ".txt"].
Proof.
  intros Hp Hok Hdot. rewrite output_path_of_eq. unfold stem.
  rewrite (Path_str_child p n Hp Hok).
  rewrite (name_snoc _ _ (part_ok_not_anchor n Hok)).
  by rewrite (stem_of_dotless n Hdot).
Qed.

End Naming.

(** ** What discovery returns, and what it does not *)

Section DiscoveryMore.

Import PyStr.

Context (E : env).

Implicit Types (f : gmap path node) (target : option string).

Lemma endswith_nil s : endswith EmptyString s = String.eqb EmptyString s.
Proof. unfold endswith. apply orb_false_r. Qed.

Lemma endswith_cons c n s :
  endswith (String c n) s = String.eqb (String c n) s || endswith n s.
Proof. reflexivity. Qed.

Lemma endswith_refl s : endswith s s = true.
Proof.
  destruct s; [done|]. by rewrite endswith_cons, String.eqb_refl.
Qed.

Lemma endswith_lower n s :
  endswith n s = true -> endswith (lower n) (lower s) = true.
Proof.
  induction n as [|c n IH].
  - rewrite endswith_nil. intros H. by apply String.eqb_eq in H as <-.
  - rewrite endswith_cons. intros H. apply orb_true_iff in H as [H|H].
    + apply String.eqb_eq in H as <-. apply endswith_refl.
    + change (lower (String c n)) with (String (lower_ascii c) (lower n)).
      rewrite endswith_cons, (IH H). apply orb_true_r.
Qed.

Lemma endswith_length n s :
  endswith n s = true -> String.length s <= String.length n.
Proof.
  induction n as [|c n IH].
  - rewrite endswith_nil. intros H. by apply String.eqb_eq in H as <-.
  - rewrite endswith_cons. intros H. apply orb_true_iff in H as [H|H].
    + by apply String.eqb_eq in H as <-.
    + specialize (IH H). simpl. lia.
Qed.

(** Two endings of one length are the same ending. *)
Lemma endswith_same_length n a b :
  endswith n a = true -> endswith n b = true ->
  String.length a = String.length b -> a = b.
Proof.
  induction n as [|c n IH].
  - rewrite !endswith_nil. intros Ha Hb _.
    apply String.eqb_eq in Ha, Hb. congruence.
  - rewrite !endswith_cons. intros Ha Hb Hlen.
    apply orb_true_iff in Ha as [Ha|Ha]; apply orb_true_iff in Hb as [Hb|Hb].
    + apply String.eqb_eq in Ha, Hb. congruence.
    + apply String.eqb_eq in Ha as <-. apply endswith_length in Hb.
      simpl in Hlen. lia.
    + apply String.eqb_eq in Hb as <-. apply endswith_length in Ha.
      simpl in Hlen. lia.
    + by apply IH.
Qed.

(** Whatever the flavour of [glob], a name that matches one of the two
    patterns ends in [.mp3] once in lower case. *)
Lemma fnmatch_star_mp3 cs lit n :
  lit = ".mp3" \/ lit = ".MP3" ->
  fnmatch_star cs lit n = true -> endswith (lower n) ".mp3" = true.
Proof.
  intros Hlit H. unfold fnmatch_star in H. destruct cs.
  - apply endswith_lower in H. by destruct Hlit as [-> | ->].
  - by destruct Hlit as [-> | ->].
Qed.

(** X3. Discovery returns nothing but audio files: the target itself, when it is
    a regular file with the suffix [.mp3] up to case, or entries directly
    inside the target whose names end in [.mp3] up to case. *)
Theorem get_mp3_files_sound f target found x :
  get_mp3_files E f target = inr found ->
  In x found ->
  (is_file E f (target_of E target) = inr true
   /\ lower (suffix (target_of E target)) = ".mp3"
   /\ x = str (target_of E target))
  \/ (is_dir E f (target_of E target) = inr true
      /\ exists n, In n (scandir f (target_of E target))
                   /\ endswith (lower n) ".mp3" = true
                   /\ x = str (target_of E target ++ [n])).
Proof.
  intros Hfound Hin.
  pose proof (get_mp3_files_inr _ _ _ _ Hfound) as Hstat.
  rewrite (is_file_inr E), (is_dir_inr E).
  destruct (isdir f (target_of E target)) eqn:Hd.
  - right. split; [done|].
    rewrite get_mp3_files_dir in Hfound by (by apply is_dir_inr).
    injection Hfound as <-.
    apply in_map_iff in Hin as (p & <- & Hp).
    apply list_elem_of_In in Hp. rewrite sort_by_perm in Hp.
    apply list_elem_of_In, in_app_iff in Hp. unfold glob_star in Hp.
    rewrite !in_map_iff in Hp.
    destruct Hp as [(n & <- & Hn)|(n & <- & Hn)];
      apply filter_In in Hn as [Hn Hm]; exists n; repeat split; try done.
    + apply (fnmatch_star_mp3 (glob_case_sensitive E) ".mp3" n); [by left|done].
    + apply (fnmatch_star_mp3 (glob_case_sensitive E) ".MP3" n); [by right|done].
  - left. rewrite get_mp3_files_stat in Hfound. cbv zeta in Hfound.
    rewrite Hstat, Hd in Hfound. injection Hfound as <-.
    destruct (isfile f (target_of E target)); [|done].
    destruct (String.eqb_spec (lower (suffix (target_of E target))) ".mp3")
      as [Hs|Hs]; [|done].
    simpl in Hin. destruct Hin as [<-|[]]. done.
Qed.

(** The name of a path made of a directory and one of its entries. *)
Lemma glob_star_names cs f p lit x :
  Forall part_ok (scandir f p) -> In x (glob_star cs f p lit) ->
  In (name x) (scandir f p).
Proof.
  intros Hok Hin. unfold glob_star in Hin.
  apply in_map_iff in Hin as (n & <- & Hn). apply filter_In in Hn as [Hn _].
  rewrite Forall_forall in Hok.
  rewrite name_snoc; [done|]. by apply part_ok_not_anchor, Hok, list_elem_of_In.
Qed.

Lemma lower_is_ascii s : is_ascii s = true -> is_ascii (lower s) = true.
Proof.
  unfold is_ascii. induction s as [|c s IH]; [done|]. simpl.
  intros H. apply andb_prop in H as [Hc Hs]. rewrite (IH Hs), andb_true_r.
  unfold lower_ascii.
  destruct ((65 <=? nat_of_ascii c) && (nat_of_ascii c <=? 90)) eqn:Hup; [|done].
  apply andb_prop in Hup as [_ Hup]. apply Nat.leb_le in Hup.
  rewrite nat_ascii_embedding by lia. apply Nat.ltb_lt. lia.
Qed.

(** X4. In a directory whose entries have ASCII names, the result is in the
    order of the lower-cased names, which are ASCII too; it holds the matches
    of the two patterns and nothing else, and entries whose names differ by
    case only stay as [glob] gave them: the matches of [*.mp3] first, each
    group in the order of the listing. *)
Theorem get_mp3_files_dir_order f target :
  is_dir E f (target_of E target) = inr true ->
  Forall part_ok (scandir f (target_of E target)) ->
  Forall (fun n => is_ascii n = true) (scandir f (target_of E target)) ->
  let found :=
    glob_star (glob_case_sensitive E) f (target_of E target) ".mp3"
    ++ glob_star (glob_case_sensitive E) f (target_of E target) ".MP3" in
  exists paths,
    get_mp3_files E f target = inr (map str paths)
    /\ StronglySorted (key_le sort_key) paths
    /\ Forall (fun p => is_ascii (sort_key p) = true) paths
    /\ paths ≡ₚ found
    /\ forall k, List.filter (fun p => String.eqb (sort_key p) k) paths
                 = List.filter (fun p => String.eqb (sort_key p) k) found.
Proof.
  intros Hd Hok Hascii found. exists (sort_by sort_key found).
  split; [by apply get_mp3_files_dir|]. split; [apply sort_by_strongly_sorted|].
  split; [|split; [apply sort_by_perm|intros k; apply sort_by_stable]].
  rewrite Forall_forall. intros x Hx. rewrite sort_by_perm in Hx.
  apply list_elem_of_In in Hx. unfold sort_key. apply lower_is_ascii.
  rewrite Forall_forall in Hascii. apply Hascii, list_elem_of_In.
  unfold found in Hx. apply in_app_iff in Hx as [Hx|Hx];
    by apply (glob_star_names _ _ _ _ _ Hok Hx).
Qed.

(** X5. With the case-insensitive [glob] of Windows, every match is returned
    twice: the result is a rearrangement of the matches of [*.mp3] taken two
    times over, and it is twice as long. *)
Theorem get_mp3_files_dir_twice f target :
  glob_case_sensitive E = false ->
  is_dir E f (target_of E target) = inr true ->
  let found := map str (glob_star false f (target_of E target) ".mp3") in
  exists files,
    get_mp3_files E f target = inr files
    /\ files ≡ₚ found ++ found
    /\ length files = 2 * length found.
Proof.
  intros Hcs Hd found. eexists.
  split; [by apply get_mp3_files_dir_windows|].
  assert (H : map str (sort_by sort_key
                (glob_star false f (target_of E target) ".mp3"
                 ++ glob_star false f (target_of E target) ".mp3"))
              ≡ₚ found ++ found).
  { unfold found. rewrite <- map_app. apply Permutation_map, sort_by_perm. }
  split; [exact H|]. rewrite H, length_app. lia.
Qed.

Lemma anchor_snoc p n : is_anchor n = false -> anchor (p ++ [n]) = anchor p.
Proof. intros Hn. destruct p; simpl; [by rewrite Hn|done]. Qed.

Lemma tail_parts_snoc_eq p n :
  is_anchor n = false -> tail_parts (p ++ [n]) = tail_parts p ++ [n].
Proof.
  intros Hn. destruct p as [|a p]; simpl; [by rewrite Hn|].
  by destruct (is_anchor a).
Qed.

Lemma join_snoc_inj t n1 n2 :
  join "/" (t ++ [n1]) = join "/" (t ++ [n2]) -> n1 = n2.
Proof.
  induction t as [|x t IH]; [done|]. simpl app.
  rewrite !join_cons_ne by (by destruct t). intros H.
  apply (inj (String.app x)) in H. injection H as H. by apply IH.
Qed.

(** Two entries of one directory that are written the same are the same. *)
Lemma str_child_inj p n1 n2 :
  part_ok n1 -> part_ok n2 -> str (p ++ [n1]) = str (p ++ [n2]) -> n1 = n2.
Proof.
  intros H1 H2. apply part_ok_not_anchor in H1, H2. unfold str.
  destruct (p ++ [n1]) eqn:E1; [by destruct p|]. rewrite <- E1.
  destruct (p ++ [n2]) eqn:E2; [by destruct p|]. rewrite <- E2.
  rewrite !anchor_snoc, !tail_parts_snoc_eq by done. intros H.
  apply (inj (String.app (anchor p))) in H. by apply join_snoc_inj in H.
Qed.

(** X6. On POSIX, discovery in a directory whose listing has no name twice
    returns each entry whose name ends in [.mp3] or in [.MP3], written so,
    exactly once, and nothing else. *)
Theorem get_mp3_files_dir_posix_once f target :
  glob_case_sensitive E = true ->
  is_dir E f (target_of E target) = inr true ->
  NoDup (scandir f (target_of E target)) ->
  Forall part_ok (scandir f (target_of E target)) ->
  exists files,
    get_mp3_files E f target = inr files
    /\ NoDup files
    /\ forall x, In x files <->
         exists n, In n (scandir f (target_of E target))
                   /\ x = str (target_of E target ++ [n])
                   /\ (endswith n ".mp3" = true \/ endswith n ".MP3" = true).
Proof.
  intros Hcs Hd Hnd Hok.
  destruct (get_mp3_files_dir_posix E f target Hcs Hd) as (files & Hfiles & Hin').
  exists files. split; [done|]. split; [|done].
  rewrite get_mp3_files_dir in Hfiles by done. injection Hfiles as <-. clear Hin'.
  rewrite Hcs. unfold glob_star.
  set (p := target_of E target) in *. set (l := scandir f p) in *.
  assert (Hnames : NoDup (List.filter (fnmatch_star true ".mp3") l
                          ++ List.filter (fnmatch_star true ".MP3") l)).
  { assert (Hfilter : forall g, NoDup (List.filter g l))
      by (intros g; apply NoDup_ListNoDup, List.NoDup_filter;
          by apply NoDup_ListNoDup).
    apply NoDup_app. split; [apply Hfilter|]. split; [|apply Hfilter].
    intros n H1 H2. apply list_elem_of_In, filter_In in H1 as [_ H1].
    apply list_elem_of_In, filter_In in H2 as [_ H2]. simpl in H1, H2.
    by pose proof (endswith_same_length n ".mp3" ".MP3" H1 H2 eq_refl). }
  apply NoDup_ListNoDup.
  apply (Permutation_NoDup
           (l := map str (map (fun n => p ++ [n])
                    (List.filter (fnmatch_star true ".mp3") l
                     ++ List.filter (fnmatch_star true ".MP3") l)))).
  { apply Permutation_map. rewrite map_app. symmetry. apply sort_by_perm. }
  rewrite map_map.
  apply NoDup_map_NoDup_ForallPairs; [|by apply NoDup_ListNoDup].
  assert (Hin : forall n, In n (List.filter (fnmatch_star true ".mp3") l
                                ++ List.filter (fnmatch_star true ".MP3") l) ->
                      part_ok n).
  { intros n Hn. apply in_app_iff in Hn.
    rewrite Forall_forall in Hok. apply Hok, list_elem_of_In.
    destruct Hn as [Hn|Hn]; by apply filter_In in Hn as [Hn _]. }
  intros n1 n2 Hn1 Hn2 Heq. apply (str_child_inj p); auto.
Qed.

End DiscoveryMore.

(** ** More on [transcribe_file] *)

Section TranscribeFileMore.

Import PyStr.

Context (E : env).

Implicit Types (f : gmap path node) (w : world) (m : Model) (p q : path).

Lemma write_scandir f p s q : scandir (write f p s) q = scandir f q.
Proof.
  unfold scandir, write. destruct (decide (q = p)) as [->|H].
  - rewrite lookup_alter_eq. by destruct (f !! p) as [[c|l]|].
  - by rewrite lookup_alter_ne.
Qed.

(** What [open(p, "w")] does to the listings: a new name at the end of the
    listing of the parent when the file is new, nothing otherwise. *)
Lemma open_w_scandir f p f' :
  parent p <> p -> open_w f p = inr f' ->
  (forall q, q <> parent p -> scandir f' q = scandir f q)
  /\ scandir f' (parent p)
     = if isfile f p then scandir f (parent p)
       else scandir f (parent p) ++ [name p].
Proof.
  intros Hp. unfold open_w, isfile.
  destruct (f !! p) as [[c|l]|] eqn:Hfp; [| done |].
  - intros [= <-]. split.
    + intros q _. unfold scandir. destruct (decide (q = p)) as [->|Hq].
      * by rewrite lookup_insert_eq, Hfp.
      * by rewrite lookup_insert_ne.
    + unfold scandir. by rewrite lookup_insert_ne.
  - destruct (f !! parent p) as [[c|l]|] eqn:Hpar; [done| |done].
    intros [= <-]. unfold create, scandir. split.
    + intros q Hq. destruct (decide (q = p)) as [->|Hq'].
      * by rewrite lookup_insert_eq, Hfp.
      * by rewrite !lookup_insert_ne.
    + rewrite lookup_insert_ne by done. by rewrite lookup_insert_eq, Hpar.
Qed.

(** X7. [transcribe_file] does not make its output directory. When the
    output directory is not a directory (it is missing, or a regular file)
    and no file is at the destination, the call raises whatever the model
    does: the model is called first, then the exception of the model or that
    of [open] leaves the call; nothing is created, and the output directory
    is still not there. *)
Theorem transcribe_file_needs_directory m audio output_dir w :
  let d := dir_of E output_dir in
  let out := output_path_of d audio in
  isdir (fs w) d = false ->
  isfile (fs w) out = false ->
  exists e w',
    transcribe_file E m audio output_dir w = (inl (Exc e), w')
    /\ fs w' = fs w
    /\ isdir (fs w') d = false
    /\ calls w' = calls w ++ [Transcribe m (str (Path audio))]
    /\ (forall e', transcribe m (str (Path audio)) = inl e' -> e = e').
Proof.
  intros d out Hd Hf.
  assert (Hrun : transcribe_file E m audio output_dir w
                 = transcribe_file E m audio (Some d) w)
    by (by destruct output_dir).
  rewrite Hrun, transcribe_file_run. fold out.
  destruct (transcribe m (str (Path audio))) as [e|r].
  { exists e. eexists. split; [reflexivity|]. repeat split; try done.
    by intros e' [= ->]. }
  assert (Hp : parent out = d) by apply output_path_parent.
  assert (Hopen : exists e, open_w (fs w) out = inl e).
  { unfold open_w, isdir, isfile in *. rewrite Hp.
    destruct (fs w !! out) as [[c|l]|]; [done|eauto|].
    destruct (fs w !! d) as [[c|l]|]; [eauto|done|eauto]. }
  destruct Hopen as [e ->]. exists e. eexists. split; [reflexivity|].
  by repeat split.
Qed.


(** X9. When [transcribe_file] returns, the artifact is the only file whose text
    changed; directories are as they were; the listing of the output
    directory has one name more, that of the artifact, if no file was there,
    and every listing holds otherwise what it held, the order of a listing
    being the business of the file system; the clock was read once and the
    model called once. *)
Theorem transcribe_file_frame m audio output_dir w o w' :
  transcribe_file E m audio output_dir w = (inr o, w') ->
  let d := dir_of E output_dir in
  let out := output_path_of d audio in
  o = str out
  /\ (forall q, q <> out -> read_text (fs w') q = read_text (fs w) q)
  /\ (forall q, isdir (fs w') q = isdir (fs w) q)
  /\ (forall q, q <> d -> scandir (fs w') q ≡ₚ scandir (fs w) q)
  /\ scandir (fs w') d
     ≡ₚ (if isfile (fs w) out then scandir (fs w) d
         else (stem (Path audio) +:+ ".txt") :: scandir (fs w) d)
  /\ clock_reads w' = S (clock_reads w)
  /\ calls w' = calls w ++ [Transcribe m (str (Path audio))].
Proof.
  intros Hrun d out.
  assert (Hsome : transcribe_file E m audio output_dir w
                  = transcribe_file E m audio (Some d) w)
    by (by destruct output_dir).
  rewrite Hsome, transcribe_file_run in Hrun. fold out in Hrun.
  destruct (transcribe m (str (Path audio))) as [e|r]; [done|].
  destruct (open_w (fs w) out) as [e|f'] eqn:Hopen; [done|].
  injection Hrun as <- <-.
  pose proof (output_path_not_parent d audio) as Hpar. fold out in Hpar.
  destruct (open_w_inv _ _ _ Hpar Hopen) as (_ & Hdirs & Hother).
  destruct (open_w_scandir _ _ _ Hpar Hopen) as (Hls & Hl).
  assert (Hp : parent out = d) by apply output_path_parent.
  assert (Hn : name out = stem (Path audio) +:+ ".txt")
    by apply output_path_name.
  rewrite Hp in Hls. rewrite Hp, Hn in Hl.
  split; [done|]. split; [|split; [|split; [|split]]].
  - intros q Hq. by rewrite saved_read_text_ne, Hother.
  - intros q. by rewrite saved_is_dir, Hdirs.
  - intros q Hq. unfold saved. simpl fs. fold out.
    rewrite !write_scandir. by rewrite Hls.
  - unfold saved. simpl fs. fold out. rewrite !write_scandir, Hl.
    destruct (isfile (fs w) out); [done|].
    symmetry. apply Permutation_cons_append.
  - done.
Qed.

End TranscribeFileMore.

(** ** The transcript: white space and the word count *)

Section Transcript.

Import PyStr.

Context (E : env).

Lemma count_words_all_space b s : all_space s = true -> count_words_from b s = 0.
Proof.
  revert b. induction s as [|c s IH]; [done|]. simpl. intros b H.
  apply andb_prop in H as [Hc Hs]. rewrite Hc. by apply IH.
Qed.

Lemma count_words_lead pre s :
  all_space pre = true ->
  count_words_from false (pre +:+ s) = count_words_from false s.
Proof.
  induction pre as [|c pre IH]; [done|]. simpl. intros H.
  apply andb_prop in H as [Hc Hs]. rewrite Hc. by apply IH.
Qed.

Lemma count_words_trail b s post :
  all_space post = true ->
  count_words_from b (s +:+ post) = count_words_from b s.
Proof.
  intros H. revert b. induction s as [|c s IH]; intros b.
  - rewrite app_empty. by apply count_words_all_space.
  - rewrite app_String. simpl. destruct (isspace c); by rewrite IH.
Qed.

Lemma count_words_strip s : count_words (strip s) = count_words s.
Proof.
  destruct (strip_spec s) as (pre & post & Hs & Hpre & Hpost & _).
  unfold count_words. rewrite Hs at 2.
  by rewrite count_words_lead, count_words_trail.
Qed.

Lemma all_space_app s t : all_space (s +:+ t) = all_space s && all_space t.
Proof.
  induction s as [|c s IH]; [done|]. rewrite app_String. simpl.
  by rewrite IH, andb_assoc.
Qed.

Lemma count_words_zero b s :
  count_words_from b s = 0 -> b = false -> all_space s = true.
Proof.
  revert b. induction s as [|c s IH]; [done|]. simpl. intros b H ->.
  destruct (isspace c); [by apply (IH false)|done].
Qed.

Lemma strip_all_space s : all_space s = true -> strip s = EmptyString.
Proof.
  intros H. unfold strip.
  assert (Hl : lstrip s = EmptyString).
  { induction s as [|c s IH]; [done|]. simpl in *.
    apply andb_prop in H as [Hc Hs]. rewrite Hc. by apply IH. }
  by rewrite Hl.
Qed.

Lemma strip_empty_all_space s : strip s = EmptyString -> all_space s = true.
Proof.
  intros H. destruct (strip_spec s) as (pre & post & Hs & Hpre & Hpost & _).
  rewrite H, app_empty in Hs. rewrite Hs, all_space_app, Hpre, Hpost. done.
Qed.

(** X10. For an ASCII text, the word count that [transcribe_file] prints is
    computed on the trimmed text, and is the word count of the text as the
    model gave it; it is 0 exactly when the body of the artifact is empty,
    which is exactly when the model gave nothing but white space. *)
Theorem transcribe_file_word_count m audio output_dir w r o w' :
  transcribe m (str (Path audio)) = inr r ->
  is_ascii (text r) = true ->
  transcribe_file E m audio output_dir w = (inr o, w') ->
  stdout w'
  = stdout w ++
      [nl +:+ rule "="; "Transcribing: " +:+ name (Path audio); rule "=";
       "[OK] Saved transcription to: " +:+ o;
       "     Word count: ~" +:+ str_of_nat (count_words (text r)) +:+ " words"]
  /\ (count_words (text r) = 0 <-> strip (text r) = EmptyString)
  /\ (strip (text r) = EmptyString <-> all_space (text r) = true).
Proof.
  intros Hm Hascii Hrun.
  assert (Hsome : transcribe_file E m audio output_dir w
                  = transcribe_file E m audio (Some (dir_of E output_dir)) w)
    by (by destruct output_dir).
  rewrite Hsome, transcribe_file_run, Hm in Hrun.
  destruct (open_w (fs w) _) as [e|f']; [done|].
  injection Hrun as <- <-. split; [|split].
  - by rewrite saved_stdout, count_words_strip.
  - split.
    + intros H. apply strip_all_space. by apply (count_words_zero false).
    + intros H. apply strip_empty_all_space in H.
      by apply count_words_all_space.
  - split; [apply strip_empty_all_space|apply strip_all_space].
Qed.

(** X11. A transcript of white space only (silent audio) is a success like any
    other: the artifact is written, with the four header lines, the blank
    line and an empty body, and the count printed is 0. *)
Theorem transcribe_file_silent m audio output_dir w r :
  transcribe m (str (Path audio)) = inr r ->
  all_space (text r) = true ->
  isdir (fs w) (dir_of E output_dir) = true ->
  isdir (fs w) (output_path_of (dir_of E output_dir) audio) = false ->
  let out := output_path_of (dir_of E output_dir) audio in
  exists w',
    transcribe_file E m audio output_dir w = (inr (str out), w')
    /\ read_text (fs w') out
       = Some ("Transcription of: " +:+ name (Path audio) +:+ nl +:+
               "Generated on: " +:+ strftime (clock E (clock_reads w)) +:+ nl +:+
               "Model used: whisper-base" +:+ nl +:+
               repeat_char "=" 60 +:+ nl +:+ nl)
    /\ last (stdout w') = Some "     Word count: ~0 words".
Proof.
  intros Hm Hsp Hd Hout out.
  assert (Hrun : transcribe_file E m audio output_dir w
                 = transcribe_file E m audio (Some (dir_of E output_dir)) w)
    by (by destruct output_dir).
  rewrite Hrun, transcribe_file_run, Hm.
  destruct (open_w_ok (fs w) out) as [f' Hopen];
    [by unfold out; rewrite output_path_parent|done|].
  fold out. rewrite Hopen. eexists. split; [reflexivity|].
  destruct (open_w_inv _ _ _ (output_path_not_parent _ _) Hopen) as (Hempty & _ & _).
  split.
  - unfold out. rewrite saved_read_text by done.
    unfold artifact_text. rewrite (strip_all_space _ Hsp). reflexivity.
  - rewrite saved_stdout, (strip_all_space _ Hsp).
    by rewrite last_app.
Qed.

End Transcript.

(** ** More on [ensure_folders_exist] and [main] *)

Section MainMore.

Import PyStr.

Context (E : env).

Implicit Types (f : gmap path node) (w : world) (m : Model) (p q : path).

Lemma absent_lookup f p :
  isfile f p = false -> isdir f p = false -> f !! p = None.
Proof. unfold isfile, isdir. by destruct (f !! p) as [[c|l]|]. Qed.

(** [mkdir] makes no directory but the one it is asked for. *)
Lemma mkdir_exist_ok_only f p f' q :
  mkdir_exist_ok f p = inr f' -> isdir f' q = true ->
  isdir f q = true \/ q = p.
Proof.
  unfold mkdir_exist_ok.
  destruct (f !! p) as [[c|l]|] eqn:Hfp; [done| |].
  - intros [= <-]. auto.
  - destruct (f !! parent p) as [[c|l]|] eqn:Hpar; [done| |done].
    intros [= <-]. unfold create, isdir.
    destruct (decide (q = p)) as [->|Hq]; [auto|].
    rewrite lookup_insert_ne by done.
    destruct (decide (q = parent p)) as [->|Hq'].
    + rewrite Hpar. auto.
    + rewrite lookup_insert_ne by done. auto.
Qed.

(** A directory that is there is left as it is. *)
Lemma mkdir_exist_ok_dir f p :
  isdir f p = true -> mkdir_exist_ok f p = inr f.
Proof.
  intros H. apply is_dir_lookup in H as [l H]. unfold mkdir_exist_ok.
  by rewrite H.
Qed.

(** A directory that is missing is made, empty, and its name goes to the end
    of the listing of its parent. *)
Lemma mkdir_exist_ok_new f p :
  parent p <> p -> f !! p = None -> isdir f (parent p) = true ->
  exists f', mkdir_exist_ok f p = inr f'
    /\ f' !! p = Some (Dir [])
    /\ scandir f' (parent p) = scandir f (parent p) ++ [name p]
    /\ (forall q, q <> p -> q <> parent p -> f' !! q = f !! q).
Proof.
  intros Hp Hfp Hpar. apply is_dir_lookup in Hpar as [l Hpar].
  unfold mkdir_exist_ok. rewrite Hfp, Hpar. eexists. split; [reflexivity|].
  unfold create, scandir. split; [by rewrite lookup_insert_eq|]. split.
  - rewrite lookup_insert_ne by done. by rewrite lookup_insert_eq, Hpar.
  - intros q Hq Hq'. by rewrite !lookup_insert_ne.
Qed.

Lemma set_fs_same w : set_fs (fs w) w = w.
Proof. by apply world_ext. Qed.

(** X12. Once [ensure_folders_exist] has returned, calling it again changes
    nothing. Both folders are directories then; no file has another text, no
    directory is gone, and the only directories that can be new are the two
    folders; nothing was printed. *)
Theorem ensure_folders_exist_idempotent w w1 :
  ensure_folders_exist E w = (inr tt, w1) ->
  ensure_folders_exist E w1 = (inr tt, w1)
  /\ isdir (fs w1) (INPUT_FOLDER E) = true
  /\ isdir (fs w1) (OUTPUT_FOLDER E) = true
  /\ (forall q, read_text (fs w1) q = read_text (fs w) q)
  /\ (forall q, isdir (fs w) q = true -> isdir (fs w1) q = true)
  /\ (forall q, isdir (fs w1) q = true ->
        isdir (fs w) q = true \/ q = INPUT_FOLDER E \/ q = OUTPUT_FOLDER E)
  /\ stdout w1 = stdout w /\ calls w1 = calls w
  /\ clock_reads w1 = clock_reads w.
Proof.
  rewrite ensure_folders_exist_run.
  destruct (mkdir_exist_ok (fs w) (INPUT_FOLDER E)) as [e|f1] eqn:H1; [done|].
  destruct (mkdir_exist_ok f1 (OUTPUT_FOLDER E)) as [e|f2] eqn:H2; [done|].
  intros [= <-].
  assert (Hpi : parent (INPUT_FOLDER E) <> INPUT_FOLDER E)
    by (rewrite INPUT_FOLDER_eq; by apply folder_not_parent).
  assert (Hpo : parent (OUTPUT_FOLDER E) <> OUTPUT_FOLDER E)
    by (rewrite OUTPUT_FOLDER_eq; by apply folder_not_parent).
  destruct (mkdir_exist_ok_inv _ _ _ Hpi H1) as (Hd1 & Hr1 & Hk1).
  destruct (mkdir_exist_ok_inv _ _ _ Hpo H2) as (Hd2 & Hr2 & Hk2).
  change (fs (set_fs f2 w)) with f2.
  split; [|split; [|split; [|split; [|split; [|split]]]]].
  - rewrite ensure_folders_exist_run.
    change (fs (set_fs f2 w)) with f2.
    rewrite (mkdir_exist_ok_dir f2 (INPUT_FOLDER E)) by auto.
    rewrite (mkdir_exist_ok_dir f2 (OUTPUT_FOLDER E)) by auto.
    by rewrite set_fs_twice.
  - auto.
  - done.
  - intros q. by rewrite Hr2, Hr1.
  - auto.
  - intros q Hq. destruct (mkdir_exist_ok_only _ _ _ _ H2 Hq) as [Hq'|Hq']; [|auto].
    destruct (mkdir_exist_ok_only _ _ _ _ H1 Hq') as [Hq''|Hq'']; auto.
  - done.
Qed.

(** In a file system where the folder of the script is there and holds
    neither [input] nor [output], the two [mkdir] make both folders. *)
Lemma folders_ready_new f :
  isdir f (SCRIPT_DIR E) = true ->
  isfile f (INPUT_FOLDER E) = false ->
  isdir f (INPUT_FOLDER E) = false ->
  isfile f (OUTPUT_FOLDER E) = false ->
  isdir f (OUTPUT_FOLDER E) = false ->
  exists f2,
    folders_ready E f = inr f2
    /\ f2 !! INPUT_FOLDER E = Some (Dir [])
    /\ f2 !! OUTPUT_FOLDER E = Some (Dir [])
    /\ scandir f2 (SCRIPT_DIR E) = scandir f (SCRIPT_DIR E) ++ ["input"; "output"]
    /\ (forall q, q <> INPUT_FOLDER E -> q <> OUTPUT_FOLDER E ->
                  q <> SCRIPT_DIR E -> f2 !! q = f !! q).
Proof.
  intros Hsd Hif Hid Hof Hod.
  pose proof (absent_lookup _ _ Hif Hid) as Hi.
  pose proof (absent_lookup _ _ Hof Hod) as Ho.
  assert (Hne : INPUT_FOLDER E <> OUTPUT_FOLDER E).
  { rewrite INPUT_FOLDER_eq, OUTPUT_FOLDER_eq. intros H.
    by apply app_inj_tail in H as [_ [=]]. }
  assert (Hpi : parent (INPUT_FOLDER E) = SCRIPT_DIR E)
    by (rewrite INPUT_FOLDER_eq; by apply parent_snoc).
  assert (Hpo : parent (OUTPUT_FOLDER E) = SCRIPT_DIR E)
    by (rewrite OUTPUT_FOLDER_eq; by apply parent_snoc).
  assert (Hni : name (INPUT_FOLDER E) = "input")
    by (rewrite INPUT_FOLDER_eq; by apply name_snoc).
  assert (Hno : name (OUTPUT_FOLDER E) = "output")
    by (rewrite OUTPUT_FOLDER_eq; by apply name_snoc).
  assert (Hsi : SCRIPT_DIR E <> INPUT_FOLDER E)
    by (rewrite INPUT_FOLDER_eq; intros H; symmetry in H; by apply snoc_ne in H).
  assert (Hso : SCRIPT_DIR E <> OUTPUT_FOLDER E)
    by (rewrite OUTPUT_FOLDER_eq; intros H; symmetry in H; by apply snoc_ne in H).
  destruct (mkdir_exist_ok_new f (INPUT_FOLDER E))
    as (f1 & H1 & Hf1 & Hl1 & Hq1);
    [rewrite Hpi; by apply not_eq_sym|done|by rewrite Hpi|].
  rewrite Hpi, Hni in *.
  destruct (mkdir_exist_ok_new f1 (OUTPUT_FOLDER E))
    as (f2 & H2 & Hf2 & Hl2 & Hq2).
  { rewrite Hpo. by apply not_eq_sym. }
  { rewrite Hq1; [done|by apply not_eq_sym|by apply not_eq_sym]. }
  { rewrite Hpo. unfold isdir. unfold scandir in Hl1.
    destruct (f1 !! SCRIPT_DIR E) as [[c|l]|]; [|done|];
      symmetry in Hl1; by apply app_eq_nil in Hl1 as [_ [=]]. }
  rewrite Hpo, Hno in *.
  exists f2. unfold folders_ready. rewrite H1. split; [exact H2|].
  split; [|split; [|split]].
  - rewrite Hq2; [done|done|by apply not_eq_sym].
  - done.
  - rewrite Hl2, Hl1. by rewrite <- app_assoc.
  - intros q Hqi Hqo Hqs. by rewrite Hq2, Hq1.
Qed.

Lemma ensure_folders_exist_ready w f2 :
  folders_ready E (fs w) = inr f2 ->
  ensure_folders_exist E w = (inr tt, set_fs f2 w).
Proof.
  unfold folders_ready. rewrite ensure_folders_exist_run.
  destruct (mkdir_exist_ok (fs w) (INPUT_FOLDER E)) as [e|f1]; [done|].
  by intros ->.
Qed.

(** X13. In a checkout that was never run (the folder of the script is there and
    holds neither [input] nor [output]), [ensure_folders_exist] makes both
    folders, empty; the folder of the script holds these two names more, and
    what it held; nothing else is touched and nothing is printed. *)
Theorem ensure_folders_exist_creates w :
  isdir (fs w) (SCRIPT_DIR E) = true ->
  isfile (fs w) (INPUT_FOLDER E) = false ->
  isdir (fs w) (INPUT_FOLDER E) = false ->
  isfile (fs w) (OUTPUT_FOLDER E) = false ->
  isdir (fs w) (OUTPUT_FOLDER E) = false ->
  exists w1,
    ensure_folders_exist E w = (inr tt, w1)
    /\ fs w1 !! INPUT_FOLDER E = Some (Dir [])
    /\ fs w1 !! OUTPUT_FOLDER E = Some (Dir [])
    /\ scandir (fs w1) (SCRIPT_DIR E)
       ≡ₚ "input" :: "output" :: scandir (fs w) (SCRIPT_DIR E)
    /\ (forall q, q <> INPUT_FOLDER E -> q <> OUTPUT_FOLDER E ->
                  q <> SCRIPT_DIR E -> fs w1 !! q = fs w !! q)
    /\ stdout w1 = stdout w.
Proof.
  intros Hsd Hif Hid Hof Hod.
  destruct (folders_ready_new (fs w) Hsd Hif Hid Hof Hod)
    as (f2 & Hready & Hi & Ho & Hl & Hq).
  exists (set_fs f2 w). rewrite (ensure_folders_exist_ready _ _ Hready).
  split; [done|]. split; [done|]. split; [done|]. split; [|by split].
  change (fs (set_fs f2 w)) with f2. rewrite Hl.
  apply (Permutation_app_comm _ ["input"; "output"]).
Qed.






Lemma main_nothing_found argv w f2 :
  folders_ready E (fs w) = inr f2 ->
  get_mp3_files E f2 (fst (parse_argv argv)) = inr [] ->
  main E argv w
  = (inl (SystemExit 1),
     add_stdout (banner_lines ++ usage_lines E argv) (set_fs f2 w)).
Proof.
  intros Hready Hnone. rewrite main_run. unfold folders_ready in Hready.
  destruct (mkdir_exist_ok (fs w) (INPUT_FOLDER E)) as [e|f1]; [done|].
  by rewrite Hready, Hnone.
Qed.

(** X16. A file that is there but is not an mp3 is no audio file: the list is
    empty, and [main] ends with the help, naming the argument, and status 1,
    before any model is loaded. *)
Theorem main_rejects_other_file script s rest w f2 :
  folders_ready E (fs w) = inr f2 ->
  is_file E (fs w) (Path s) = inr true ->
  lower (suffix (Path s)) <> ".mp3" ->
  s <> EmptyString ->
  get_mp3_files E f2 (Some s) = inr []
  /\ exists w',
       run E (script :: s :: rest) w = (1, w')
       /\ stdout w'
          = stdout w ++ banner_lines
            ++ (nl +:+ "[!] No MP3 files found in: " +:+ s)
               :: tl (usage_lines E (script :: s :: rest))
       /\ calls w' = calls w
       /\ (forall q, read_text (fs w') q = read_text (fs w) q).
Proof.
  intros Hready Hfile Hsuf Hs.
  apply is_file_inr in Hfile as [Hstat Hfile].
  destruct (folders_ready_inv _ _ _ Hready) as [_ Hsame].
  assert (Hfile2 : isfile f2 (Path s) = true).
  { apply is_file_read_text in Hfile as [c Hc]. apply is_file_read_text.
    exists c. by rewrite Hsame. }
  assert (Hnone : get_mp3_files E f2 (Some s) = inr []).
  { rewrite get_mp3_files_stat. cbv zeta. unfold target_of.
    rewrite Hstat, Hfile2.
    destruct (String.eqb_spec (lower (suffix (Path s))) ".mp3") as [H|_]; [done|].
    destruct (isdir f2 (Path s)) eqn:Hd; [|done].
    apply is_dir_not_file in Hd. congruence. }
  split; [done|]. eexists. unfold run.
  rewrite (main_nothing_found _ w f2 Hready) by done.
  split; [reflexivity|]. split; [|split; [done|exact Hsame]].
  simpl stdout. unfold usage_lines. simpl fst. cbv beta iota.
  destruct (String.eqb s EmptyString) eqn:Heq; [|reflexivity].
  by apply String.eqb_eq in Heq.
Qed.

(** X17. The empty string as argument is the current directory for the search
    (the empty path is the path of [.]), but it counts as no argument in the message
    that nothing was found: the message names the input folder, which was
    not searched. *)
Theorem main_empty_argument script rest w f2 :
  folders_ready E (fs w) = inr f2 ->
  get_mp3_files E f2 (Some ".") = inr [] ->
  target_of E (Some EmptyString) = target_of E (Some ".")
  /\ exists w',
       run E (script :: EmptyString :: rest) w = (1, w')
       /\ stdout w'
          = stdout w ++ banner_lines
            ++ (nl +:+ "[!] No MP3 files found in: " +:+ str (INPUT_FOLDER E))
               :: tl (usage_lines E (script :: EmptyString :: rest)).
Proof.
  intros Hready Hnone. split; [reflexivity|]. eexists. unfold run.
  rewrite (main_nothing_found _ w f2 Hready) by exact Hnone.
  split; reflexivity.
Qed.

(** X18. After a batch, the last lines printed are the heading of the list of
    artifacts and one line for each file that did not raise, in the order of
    discovery, each naming [<stem>.txt]; the clock was read once for each of
    them. The folder of the script is taken in the form [pathlib] prints. *)
Theorem main_generated_files argv w f2 files m :
  Path (str (SCRIPT_DIR E)) = SCRIPT_DIR E ->
  folders_ready E (fs w) = inr f2 ->
  get_mp3_files E f2 (fst (parse_argv argv)) = inr files ->
  files <> [] ->
  whisper_load_model E MODEL_SIZE = inr m ->
  let written := List.filter (succeeds E m f2) files in
  exists w' before,
    run E argv w = (0, w')
    /\ stdout w'
       = before ++ (nl +:+ "Generated files:")
                  :: map (fun a => "  - " +:+ stem (Path a) +:+ ".txt") written
    /\ clock_reads w' = clock_reads w + length written.
Proof.
  intros Hsd Hready Hfound Hne Hload written.
  destruct (main_batch E argv w f2 files m Hready Hfound Hne Hload)
    as (w1 & w2 & Hfs & Hclk & Hcalls & _ & Hpost & Hmain).
  fold written in Hmain.
  destruct Hpost as (_ & _ & Hk & _).
  unfold run. rewrite Hmain.
  exists (add_stdout (summary_lines E
            (map (fun a => str (output_path_of (OUTPUT_FOLDER E) a)) written)
            files) w2).
  exists (stdout w2
          ++ [nl +:+ rule "="; "  BATCH TRANSCRIPTION COMPLETE!"; rule "=";
              summary_line (length written) (length files);
              nl +:+ "Output folder: " +:+ str (OUTPUT_FOLDER E)]).
  split; [reflexivity|]. split.
  - simpl stdout. unfold summary_lines. rewrite map_map, length_map.
    rewrite <- app_assoc. f_equal. simpl app. do 6 f_equal.
    apply map_ext. intros a. f_equal.
    rewrite output_path_of_eq, Path_str_child.
    + apply name_snoc, output_name_not_anchor.
    + rewrite OUTPUT_FOLDER_eq. by apply Path_str_child.
    + apply txt_name_ok, stem_of_name_free, name_Path_free.
  - simpl clock_reads. fold written in Hk. by rewrite Hk, Hclk.
Qed.

(** X19. The first run of a fresh checkout without an argument: both folders are
    made, the input folder is empty, so the run ends with the help, naming
    the input folder, and status 1; whisper is not called. *)
Theorem main_first_run argv w :
  (length argv <= 1)%nat ->
  isdir (fs w) (SCRIPT_DIR E) = true ->
  is_file E (fs w) (INPUT_FOLDER E) = inr false ->
  is_dir E (fs w) (INPUT_FOLDER E) = inr false ->
  isfile (fs w) (OUTPUT_FOLDER E) = false ->
  isdir (fs w) (OUTPUT_FOLDER E) = false ->
  exists w',
    run E argv w = (1, w')
    /\ fs w' !! INPUT_FOLDER E = Some (Dir [])
    /\ fs w' !! OUTPUT_FOLDER E = Some (Dir [])
    /\ stdout w'
       = stdout w ++ banner_lines
         ++ (nl +:+ "[!] No MP3 files found in: " +:+ str (INPUT_FOLDER E))
            :: tl (usage_lines E argv)
    /\ calls w' = calls w.
Proof.
  intros Hargv Hsd Hif Hid Hof Hod.
  apply is_file_inr in Hif as [Hstat Hif]. apply is_dir_inr in Hid as [_ Hid].
  destruct (folders_ready_new (fs w) Hsd Hif Hid Hof Hod)
    as (f2 & Hready & Hi & Ho & _).
  assert (Hparse : parse_argv argv = (None, false)).
  { destruct argv as [|a [|b argv]]; [done|done|simpl in Hargv; lia]. }
  assert (Hnone : get_mp3_files E f2 (fst (parse_argv argv)) = inr []).
  { rewrite Hparse. simpl fst. rewrite get_mp3_files_dir.
    - unfold glob_star, scandir, target_of. by rewrite Hi.
    - apply is_dir_inr. split; [done|]. apply is_dir_lookup. eauto. }
  exists (add_stdout (banner_lines ++ usage_lines E argv) (set_fs f2 w)).
  unfold run. rewrite (main_nothing_found _ w f2 Hready Hnone).
  split; [done|]. split; [done|]. split; [done|]. split; [|done].
  simpl stdout. unfold usage_lines. by rewrite Hparse.
Qed.

End MainMore.

(** ** The properties above on the example worlds *)

(** X1 on an example. The artifact of [pod/ep1.mp3]. *)
Lemma artifact_of_entry_witness :
  Path (str ["pod"; "ep1.mp3"]) = ["pod"; "ep1.mp3"]
  /\ output_path_of ["app"; "output"] (str ["pod"; "ep1.mp3"])
     = ["app"; "output"; "ep1.txt"].
Proof.
  destruct (artifact_of_entry ["pod"] "ep1" "mp3" ["app"; "output"])
    as (H1 & _ & H2); try (vm_compute; reflexivity); try discriminate.
  split; [exact H1|exact H2].
Defined.

(** X2 on an example. The hidden file [.mp3], which [*.mp3] matches, has no suffix. *)
Lemma artifact_of_entry_without_suffix_witness :
  output_path_of ["app"; "output"] (str ["pod"; ".mp3"])
  = ["app"; "output"; ".mp3.txt"].
Proof.
  apply (artifact_of_entry_without_suffix ["pod"] ".mp3" ["app"; "output"]).
  - vm_compute; reflexivity.
  - split; vm_compute; reflexivity.
  - vm_compute; reflexivity.
Defined.

(** X3 on an example. Where [pod/a.mp3] comes from. *)
Lemma get_mp3_files_sound_witness :
  let E := ex_env true (inr good_model) in
  exists n, In n (scandir (ex_fs ["a.mp3"; "c.txt"]) ["pod"])
            /\ PyStr.endswith (PyStr.lower n) ".mp3" = true
            /\ "pod/a.mp3" = str (["pod"] ++ [n]).
Proof.
  intros E.
  destruct (get_mp3_files_sound E (ex_fs ["a.mp3"; "c.txt"]) (Some "pod")
              ["pod/a.mp3"] "pod/a.mp3")
    as [(Hf & _)|(_ & H)].
  - vm_compute. reflexivity.
  - simpl. auto.
  - vm_compute in Hf. discriminate Hf.
  - exact H.
Defined.

(** X4 on an example. Three files of [pod], listed out of order. *)
Lemma get_mp3_files_dir_order_witness :
  let E := ex_env true (inr good_model) in
  exists paths,
    get_mp3_files E (ex_fs ["c.mp3"; "a.mp3"; "B.MP3"]) (Some "pod")
    = inr (map str paths)
    /\ StronglySorted (key_le sort_key) paths.
Proof.
  intros E.
  destruct (get_mp3_files_dir_order E (ex_fs ["c.mp3"; "a.mp3"; "B.MP3"]) (Some "pod"))
    as (paths & H1 & H2 & _).
  - vm_compute; reflexivity.
  - vm_compute. repeat constructor.
  - vm_compute. repeat constructor.
  - exists paths. split; [exact H1|exact H2].
Defined.

(** X5 on an example. Two files of [pod] under the [glob] of Windows. *)
Lemma get_mp3_files_dir_twice_witness :
  let E := ex_env false (inr good_model) in
  let f := ex_fs ["a.mp3"; "b.MP3"; "c.txt"] in
  exists files,
    get_mp3_files E f (Some "pod") = inr files
    /\ length files
       = 2 * length (map str (glob_star false f (target_of E (Some "pod")) ".mp3")).
Proof.
  intros E f.
  destruct (get_mp3_files_dir_twice E f (Some "pod")) as (files & H1 & _ & H2);
    [reflexivity|vm_compute; reflexivity|].
  exists files. split; [exact H1|exact H2].
Defined.

(** X6 on an example. The same two files under the [glob] of POSIX. *)
Lemma get_mp3_files_dir_posix_once_witness :
  let E := ex_env true (inr good_model) in
  exists files,
    get_mp3_files E (ex_fs ["a.mp3"; "b.MP3"; "c.txt"]) (Some "pod") = inr files
    /\ NoDup files.
Proof.
  intros E.
  destruct (get_mp3_files_dir_posix_once E (ex_fs ["a.mp3"; "b.MP3"; "c.txt"])
              (Some "pod")) as (files & H1 & H2 & _).
  - reflexivity.
  - vm_compute; reflexivity.
  - refine (bool_decide_unpack _ _). vm_compute. exact I.
  - vm_compute. repeat constructor.
  - exists files. split; [exact H1|exact H2].
Defined.

(** X7 on an example. A checkout in which the output folder was never made. *)
Lemma transcribe_file_needs_directory_witness :
  let E := ex_env true (inr good_model) in
  exists e w',
    transcribe_file E good_model "pod/a.mp3" None (fresh_world ["a.mp3"])
    = (inl (Exc e), w')
    /\ isdir (fs w') ["app"; "output"] = false.
Proof.
  intros E.
  destruct (transcribe_file_needs_directory E good_model "pod/a.mp3" None
              (fresh_world ["a.mp3"]))
    as (e & w' & H1 & _ & H2 & _); try (vm_compute; reflexivity).
  exists e, w'. split; [exact H1|exact H2].
Defined.


(** X9 on an example. The artifact of [ep1.mp3] is new in the output folder, and the audio
    file reads as before. *)
Lemma transcribe_file_frame_witness :
  let E := ex_env true (inr good_model) in
  let w := ex_world ["ep1.mp3"] in
  let r := transcribe_file E good_model "pod/ep1.mp3" None w in
  fst r = inr "app/output/ep1.txt"
  /\ read_text (fs (snd r)) ["pod"; "ep1.mp3"] = read_text (fs w) ["pod"; "ep1.mp3"]
  /\ clock_reads (snd r) = 1.
Proof.
  intros E w r.
  assert (Hfst : fst r = inr "app/output/ep1.txt") by (vm_compute; reflexivity).
  assert (Hr : r = (inr "app/output/ep1.txt", snd r))
    by (rewrite <- Hfst; apply surjective_pairing).
  destruct (transcribe_file_frame E good_model "pod/ep1.mp3" None w _ _ Hr)
    as (_ & H1 & _ & _ & _ & H2 & _).
  split; [exact Hfst|]. split; [|exact H2].
  apply H1. vm_compute. discriminate.
Defined.

(** X10 on an example. Three words, counted on the trimmed text. *)
Lemma transcribe_file_word_count_witness :
  let E := ex_env true (inr good_model) in
  let w := ex_world ["ep1.mp3"] in
  let r := transcribe_file E good_model "pod/ep1.mp3" None w in
  stdout (snd r)
  = [nl +:+ rule "="; "Transcribing: ep1.mp3"; rule "=";
     "[OK] Saved transcription to: app/output/ep1.txt";
     "     Word count: ~3 words"].
Proof.
  intros E w r.
  assert (Hfst : fst r = inr "app/output/ep1.txt") by (vm_compute; reflexivity).
  assert (Hr : r = (inr "app/output/ep1.txt", snd r))
    by (rewrite <- Hfst; apply surjective_pairing).
  assert (Hascii : PyStr.is_ascii (text (ex_text "pod/ep1.mp3")) = true)
    by (vm_compute; reflexivity).
  destruct (transcribe_file_word_count E good_model "pod/ep1.mp3" None w
              (ex_text "pod/ep1.mp3") _ _ eq_refl Hascii Hr) as (H & _).
  rewrite H. vm_compute. reflexivity.
Defined.

(** X11 on an example. Silent audio. *)
Lemma transcribe_file_silent_witness :
  let E := ex_env true (inr silent_model) in
  exists w',
    transcribe_file E silent_model "pod/ep1.mp3" None (ex_world ["ep1.mp3"])
    = (inr "app/output/ep1.txt", w')
    /\ last (stdout w') = Some "     Word count: ~0 words".
Proof.
  intros E.
  destruct (transcribe_file_silent E silent_model "pod/ep1.mp3" None
              (ex_world ["ep1.mp3"]) {| text := "  " +:+ nl |})
    as (w' & H1 & _ & H2); try (vm_compute; reflexivity).
  exists w'. split; [exact H1|exact H2].
Defined.

(** X12 on an example. The second call in a checkout that was fresh before the first. *)
Lemma ensure_folders_exist_idempotent_witness :
  let E := ex_env true (inr good_model) in
  let r := ensure_folders_exist E (fresh_world ["a.mp3"]) in
  fst r = inr tt /\ ensure_folders_exist E (snd r) = (inr tt, snd r).
Proof.
  intros E r.
  assert (Hfst : fst r = inr tt) by (vm_compute; reflexivity).
  assert (Hr : r = (inr tt, snd r))
    by (rewrite <- Hfst; apply surjective_pairing).
  destruct (ensure_folders_exist_idempotent E (fresh_world ["a.mp3"]) _ Hr)
    as (H & _).
  split; [exact Hfst|exact H].
Defined.

(** X13 on an example. The first call in a fresh checkout. *)
Lemma ensure_folders_exist_creates_witness :
  let E := ex_env true (inr good_model) in
  exists w1,
    ensure_folders_exist E (fresh_world ["a.mp3"]) = (inr tt, w1)
    /\ scandir (fs w1) ["app"] ≡ₚ ["input"; "output"; "transcribe.py"].
Proof.
  intros E.
  destruct (ensure_folders_exist_creates E (fresh_world ["a.mp3"]))
    as (w1 & H1 & _ & _ & H2 & _); try (vm_compute; reflexivity).
  exists w1. split; [exact H1|exact H2].
Defined.



(** X16 on an example. A text file as argument. *)
Lemma main_rejects_other_file_witness :
  let E := ex_env true (inr good_model) in
  let w := ex_world ["notes.txt"] in
  exists w',
    run E ["transcribe.py"; "pod/notes.txt"] w = (1, w') /\ calls w' = calls w.
Proof.
  intros E w.
  destruct (main_rejects_other_file E "transcribe.py" "pod/notes.txt" [] w (fs w))
    as (_ & w' & H1 & _ & H2 & _).
  - apply folders_ready_existing; vm_compute; reflexivity.
  - vm_compute; reflexivity.
  - vm_compute; discriminate.
  - discriminate.
  - exists w'. split; [exact H1|exact H2].
Defined.

(** X17 on an example. The empty string as argument, in a current directory without audio. *)
Lemma main_empty_argument_witness :
  let E := ex_env true (inr good_model) in
  let w := ex_world ["a.mp3"] in
  exists w',
    run E ["transcribe.py"; EmptyString] w = (1, w')
    /\ stdout w'
       = stdout w ++ banner_lines
         ++ (nl +:+ "[!] No MP3 files found in: " +:+ str (INPUT_FOLDER E))
            :: tl (usage_lines E ["transcribe.py"; EmptyString]).
Proof.
  intros E w.
  destruct (main_empty_argument E "transcribe.py" [] w (fs w)) as (_ & H).
  - apply folders_ready_existing; vm_compute; reflexivity.
  - vm_compute; reflexivity.
  - exact H.
Defined.

(** X18 on an example. The list of artifacts of the batch of three. *)
Lemma main_generated_files_witness :
  let E := ex_env true (inr (picky_model "pod/b.mp3")) in
  let w := ex_world ["c.mp3"; "a.mp3"; "b.mp3"] in
  exists w' before,
    run E ["transcribe.py"; "pod"] w = (0, w')
    /\ stdout w' = before ++ [nl +:+ "Generated files:"; "  - a.txt"; "  - c.txt"].
Proof.
  intros E w.
  destruct (main_generated_files E ["transcribe.py"; "pod"] w (fs w)
              ["pod/a.mp3"; "pod/b.mp3"; "pod/c.mp3"] (picky_model "pod/b.mp3"))
    as (w' & before & H1 & H2 & _).
  - vm_compute; reflexivity.
  - apply folders_ready_existing; vm_compute; reflexivity.
  - vm_compute; reflexivity.
  - discriminate.
  - reflexivity.
  - exists w', before. split; [exact H1|]. rewrite H2. f_equal.
Defined.

(** X19 on an example. The first run of a fresh checkout. *)
Lemma main_first_run_witness :
  let E := ex_env true (inr good_model) in
  exists w',
    run E ["transcribe.py"] (fresh_world ["a.mp3"]) = (1, w')
    /\ fs w' !! ["app"; "input"] = Some (Dir [])
    /\ calls w' = [].
Proof.
  intros E.
  destruct (main_first_run E ["transcribe.py"] (fresh_world ["a.mp3"]))
    as (w' & H1 & H2 & _ & _ & H3); try (vm_compute; reflexivity).
  exists w'. split; [exact H1|]. split; [exact H2|exact H3].
Defined.
